(** * WebAgent: plan parsing and fault-tolerant action execution

    A shallow embedding of [lib/webAgent.js] (class [WebAgent]) and of the
    API route that drives it ([handler]), with the properties of the
    task-execution engine stated and proved over the embedding.

    JavaScript strings are modelled as [string]; the regular expressions
    of the parser, which all have the shape [/<prefix>([^q]+)q/], are
    modelled by one leftmost-match function, proved to agree with the
    meaning of such a pattern.  The browser driver, the browser
    process and the chat-completion service are collaborators: they are an
    interface ([Collaborators]) whose operations either return or throw, and
    every call the agent makes is appended to a log. *)

From Stdlib Require Import Strings.String Strings.Ascii.
From Stdlib Require Import Lists.List.
From Stdlib Require Import Bool.Bool Arith.PeanoNat NArith.NArith Lia.
Import ListNotations.

Local Open Scope list_scope.
Local Open Scope string_scope.

(* ================================================================== *)
(** * Strings, as the parser uses them                                *)
(* ================================================================== *)

Module Js.

(** The line feed of [analysis.split('\n')]. *)
Definition LF : ascii := "010"%char.

(** The double quote of the attribute patterns. *)
Definition DQ : ascii := "034"%char.

(** The single quote of the quoted-text pattern. *)
Definition SQ : ascii := "039"%char.

Definition chr (c : ascii) : string := String c EmptyString.

(** [strip_prefix p s]: what follows [p] at the head of [s], when [s]
    starts with [p]. *)
Fixpoint strip_prefix (p s : string) : option string :=
  match p with
  | EmptyString => Some s
  | String a p' =>
      match s with
      | EmptyString => None
      | String b s' => if Ascii.eqb a b then strip_prefix p' s' else None
      end
  end.

(** [String.prototype.includes]: case-sensitive substring search. *)
Fixpoint includes (sub s : string) : bool :=
  match strip_prefix sub s with
  | Some _ => true
  | None =>
      match s with
      | EmptyString => false
      | String _ s' => includes sub s'
      end
  end.

(** [split_first sep s]: the text before the first [sep] of [s], and the
    pieces after it. *)
Fixpoint split_first (sep : ascii) (s : string) : string * list string :=
  match s with
  | EmptyString => (EmptyString, [])
  | String c s' =>
      let (piece, pieces) := split_first sep s' in
      if Ascii.eqb c sep then (EmptyString, piece :: pieces)
      else (String c piece, pieces)
  end.

(** [String.prototype.split] with a one-character separator: the empty
    string splits into one empty piece. *)
Definition split (sep : ascii) (s : string) : list string :=
  let (piece, pieces) := split_first sep s in piece :: pieces.

(** [span_not q s]: the longest run of characters other than [q] at the
    head of [s], and the rest of [s]. *)
Fixpoint span_not (q : ascii) (s : string) : string * string :=
  match s with
  | EmptyString => (EmptyString, EmptyString)
  | String c s' =>
      if Ascii.eqb c q then (EmptyString, s)
      else let (run, rest) := span_not q s' in (String c run, rest)
  end.

(** One attempt of the pattern [/<pre>([^q]+)q/] at the head of [s].
    [[^q]+] is greedy and cannot run over a [q], so the only candidate
    for the group is the longest [q]-free run after [pre]; the attempt
    succeeds when that run is not empty and a [q] follows it. *)
Definition match_here (pre : string) (q : ascii) (s : string)
  : option string :=
  match strip_prefix pre s with
  | None => None
  | Some after =>
      match span_not q after with
      | (String c run, String _ _) => Some (String c run)
      | _ => None
      end
  end.

(** [s.match(/<pre>([^q]+)q/)], reduced to capture group 1: the attempt
    is made at each position from the left, the first success wins;
    [None] is the [null] of a failed match. *)
Fixpoint match_group (pre : string) (q : ascii) (s : string)
  : option string :=
  match match_here pre q s with
  | Some group => Some group
  | None =>
      match s with
      | EmptyString => None
      | String _ s' => match_group pre q s'
      end
  end.

(** Interpolation of a value that is a string or [null] into a template
    literal. *)
Definition interpolate (v : option string) : string :=
  match v with
  | Some s => s
  | None => "null"
  end.

End Js.

(* ================================================================== *)
(** * Actions and the plan parser                                     *)
(* ================================================================== *)

(** An element of the array built by [parseAnalysis]: [selector] is a
    string or [null]; [value] is present on 'type' actions only. *)
Record Action : Type := mkAction {
  type : string;
  selector : option string;
  value : option string
}.

(** [extractSelector(line)] *)
Definition extractSelector (line : string) : option string :=
  match Js.match_group ("id=" ++ Js.chr Js.DQ) Js.DQ line with
  | Some idMatch => Some ("#" ++ idMatch)
  | None =>
      match Js.match_group ("class=" ++ Js.chr Js.DQ) Js.DQ line with
      | Some classMatch => Some ("." ++ classMatch)
      | None =>
          match Js.match_group (Js.chr Js.SQ) Js.SQ line with
          | Some textMatch =>
              Some ("text=" ++ Js.chr Js.DQ ++ textMatch ++ Js.chr Js.DQ)
          | None => None
          end
      end
  end.

(** [extractValue(line)] *)
Definition extractValue (line : string) : string :=
  match Js.match_group ("value=" ++ Js.chr Js.DQ) Js.DQ line with
  | Some valueMatch => valueMatch
  | None => EmptyString
  end.

(** One iteration of the loop of [parseAnalysis]: the actions array after
    [line] has been looked at. *)
Definition parseLine (actions : list Action) (line : string) : list Action :=
  if Js.includes "click" line then
    (actions ++ [mkAction "click" (extractSelector line) None])%list
  else if Js.includes "type" line then
    (actions ++ [mkAction "type" (extractSelector line)
                          (Some (extractValue line))])%list
  else if Js.includes "submit" line then
    (actions ++ [mkAction "submit" (extractSelector line) None])%list
  else actions.

(** [parseAnalysis(analysis)], for [analysis] a string. *)
Definition parseAnalysis (analysis : string) : list Action :=
  let lines := Js.split Js.LF analysis in
  fold_left parseLine lines [].

(* ================================================================== *)
(** * Collaborators and the effects of the agent                      *)
(* ================================================================== *)

(** A thrown JavaScript [Error]; only its [message] is ever read. *)
Module JsError.
Record t : Type := mk { message : string }.
End JsError.

(** How an awaited call ends: with a value, or with a thrown error (a
    rejected promise and a synchronous throw are the same to [await]
    inside [try]). *)
Inductive Completion (A : Type) : Type :=
| Normal (a : A)
| Thrown (error : JsError.t).
Arguments Normal {A} a.
Arguments Thrown {A} error.

(** The snapshot built by [extractPageContent]. *)
Record Link : Type := mkLink { link_text : string; href : string }.
Record Input : Type := mkInput {
  input_type : string; input_id : string; name : string; placeholder : string
}.
Record Button : Type := mkButton {
  button_text : string; button_id : string; button_type : string
}.
Record PageSnapshot : Type := mkSnapshot {
  text : string;
  links : list Link;
  inputs : list Input;
  buttons : list Button
}.

(** The data interpolated into the prompt of [analyzeContent]; the fixed
    wording of the template, the model name and the temperature are not
    part of it. *)
Record Prompt : Type := mkPrompt {
  prompt_task : string;
  prompt_text : string;
  prompt_links : list Link;
  prompt_inputs : list Input;
  prompt_buttons : list Button
}.

(** The calls the agent makes on its collaborators. *)
Inductive Call : Type :=
| Launch
| NewPage
| BrowserClose
| Goto (url : string) (timeout : N)
| EvaluateContent
| CreateChatCompletion (prompt : Prompt)
| Click (target : option string)
| TypeInto (target : option string) (keys : option string)
| EvaluateSubmit (target : option string)
| WaitForNetworkIdle (timeout : N)
| ConsoleError (error : JsError.t).

(** The collaborators: puppeteer's browser and page, the chat-completion
    client, and the engine's [TypeError]s for [null.split] and for the
    destructuring of an [undefined] or [null] body.  [E] is their state;
    each operation returns or throws and moves that state. *)
Class Collaborators (E : Type) : Type := {
  puppeteer_launch : E -> Completion unit * E;
  browser_newPage : E -> Completion unit * E;
  browser_close : E -> Completion unit * E;
  page_goto : string -> N -> E -> Completion unit * E;
  page_evaluate_content : E -> Completion PageSnapshot * E;
  page_click : option string -> E -> Completion unit * E;
  page_type : option string -> option string -> E -> Completion unit * E;
  page_evaluate_submit : option string -> E -> Completion unit * E;
  page_waitForNetworkIdle : N -> E -> Completion unit * E;
  openai_createChatCompletion : Prompt -> E -> Completion (option string) * E;
  split_of_null : JsError.t;
  destructure_of_undefined : JsError.t;
  destructure_of_null : JsError.t
}.

(** The state an agent runs in: the collaborators' state, the log of the
    calls made so far, whether [this.browser] has been assigned, and the
    array [results] of [executeActions].  [this.page] is dereferenced by
    [executeTask] and its helpers only, which [handler] runs after
    [initialize] has returned: they are modelled on such an agent. *)
Record State (E : Type) : Type := mkState {
  env : E;
  log : list Call;
  browser : bool;
  results : list string
}.
Arguments mkState {E}.
Arguments env {E}.
Arguments log {E}.
Arguments browser {E}.
Arguments results {E}.

(** Computations that read and write the state and may throw. *)
Definition M (E A : Type) : Type := State E -> Completion A * State E.

Definition ret {E A} (a : A) : M E A := fun st => (Normal a, st).

Definition bind {E A B} (m : M E A) (k : A -> M E B) : M E B :=
  fun st =>
    match m st with
    | (Normal a, st') => k a st'
    | (Thrown error, st') => (Thrown error, st')
    end.

Definition throw {E A} (error : JsError.t) : M E A :=
  fun st => (Thrown error, st).

(** [try { body } catch (error) { handler }] *)
Definition try_catch {E A} (body : M E A) (handler : JsError.t -> M E A)
  : M E A :=
  fun st =>
    match body st with
    | (Normal a, st') => (Normal a, st')
    | (Thrown error, st') => handler error st'
    end.

Declare Scope js_scope.
Delimit Scope js_scope with js.
Notation "x <- m ;; k" := (bind m (fun x => k))
  (at level 61, m at next level, right associativity) : js_scope.
Notation "m ;; k" := (bind m (fun _ => k))
  (at level 61, right associativity) : js_scope.

(** [for (const x of xs) { body x }] *)
Fixpoint for_of {E A} (xs : list A) (body : A -> M E unit) : M E unit :=
  match xs with
  | [] => ret tt
  | x :: xs' => bind (body x) (fun _ => for_of xs' body)
  end.

(** A call on a collaborator: it is logged, then made. *)
Definition call {E A} (c : Call) (op : E -> Completion A * E) : M E A :=
  fun st =>
    let (r, e') := op (env st) in
    (r, mkState e' (log st ++ [c])%list (browser st) (results st)).

Definition set_browser {E} (b : bool) : M E unit :=
  fun st => (Normal tt, mkState (env st) (log st) b (results st)).

Definition get_browser {E} : M E bool :=
  fun st => (Normal (browser st), st).

Definition new_results {E} : M E unit :=
  fun st => (Normal tt, mkState (env st) (log st) (browser st) []).

(** [results.push(r)] *)
Definition push {E} (r : string) : M E unit :=
  fun st =>
    (Normal tt,
     mkState (env st) (log st) (browser st) (results st ++ [r])%list).

Definition get_results {E} : M E (list string) :=
  fun st => (Normal (results st), st).

(* ================================================================== *)
(** * The agent                                                       *)
(* ================================================================== *)

(** The object returned by [executeTask]. *)
Record TaskResult : Type := mkTaskResult {
  success : bool;
  result : list string;
  message : string
}.

(** JSON values, for the body [res.json(...)] writes. *)
#[warnings="-register-all"]
Inductive JsValue : Type :=
| JsNull
| JsBoolean (b : bool)
| JsString (s : string)
| JsArray (items : list JsValue)
| JsObject (members : list (string * JsValue)).

(** The results array as a JSON value: its elements are the strings that
    [executeActions] pushed. *)
Definition json_of_results (rs : list string) : list JsValue :=
  map JsString rs.

Definition json_of_TaskResult (r : TaskResult) : JsValue :=
  JsObject [("success", JsBoolean (success r));
            ("result", JsArray (json_of_results (result r)));
            ("message", JsString (message r))].

Definition json_of_error (error_message : string) : JsValue :=
  JsObject [("error", JsString error_message)].

(** [req.body]: [undefined], [null], or a value [url] and [task] can be
    read from.  The two fields are strings or absent; a body that is
    neither an object nor [null] nor [undefined] (a string, a number) has
    neither field. *)
Inductive Body : Type :=
| BodyUndefined
| BodyNull
| BodyObject (url task : option string).

(** The request and the response of the API route. *)
Record Request : Type := mkRequest {
  method : string;
  body : Body
}.

(** The [url] and the [task] of the body of a request, when it has
    them. *)
Definition body_url (req : Request) : option string :=
  match body req with
  | BodyObject url _ => url
  | _ => None
  end.

Definition body_task (req : Request) : option string :=
  match body req with
  | BodyObject _ task => task
  | _ => None
  end.

Record Response : Type := mkResponse { status : N; json : JsValue }.

(** [!v] for a value that is a string or absent. *)
Definition falsy (v : option string) : bool :=
  match v with
  | None => true
  | Some s => (s =? EmptyString)%string
  end.

Section WebAgent.

Context {E : Type} `{Collaborators E}.
Local Open Scope js_scope.

(** [initialize()] *)
Definition initialize : M E unit :=
  call Launch puppeteer_launch ;;
  set_browser true ;;
  call NewPage browser_newPage.

(** [close()] *)
Definition close : M E unit :=
  this_browser <- get_browser ;;
  if this_browser then call BrowserClose browser_close else ret tt.

(** [extractPageContent()] *)
Definition extractPageContent : M E PageSnapshot :=
  call EvaluateContent page_evaluate_content.

(** The data [analyzeContent] puts into its prompt: the task, the first
    1000 characters of the page text, and the three element lists. *)
Definition build_prompt (content : PageSnapshot) (task : string) : Prompt :=
  mkPrompt task (substring 0 1000 (text content))
           (links content) (inputs content) (buttons content).

(** [analyzeContent(content, task)]: [None] is a [null] message content,
    on which [analysis.split] throws. *)
Definition analyzeContent (content : PageSnapshot) (task : string)
  : M E (list Action) :=
  let prompt := build_prompt content task in
  completion <-
    call (CreateChatCompletion prompt) (openai_createChatCompletion prompt) ;;
  match completion with
  | Some analysis => ret (parseAnalysis analysis)
  | None => throw split_of_null
  end.

(** The [switch (action.type)] of [executeActions]: the driver call of
    the action's case, then the push of its description; no case for
    another type. *)
Definition switch (action : Action) : M E unit :=
  if (type action =? "click")%string then
    call (Click (selector action)) (page_click (selector action)) ;;
    push ("Clicked " ++ Js.interpolate (selector action))
  else if (type action =? "type")%string then
    call (TypeInto (selector action) (value action))
         (page_type (selector action) (value action)) ;;
    push ("Typed into " ++ Js.interpolate (selector action))
  else if (type action =? "submit")%string then
    call (EvaluateSubmit (selector action))
         (page_evaluate_submit (selector action)) ;;
    push ("Submitted form " ++ Js.interpolate (selector action))
  else ret tt.

(** [await this.page.waitForNetworkIdle({ timeout: 3000 }).catch(() => {})] *)
Definition settle : M E unit :=
  try_catch (call (WaitForNetworkIdle 3000) (page_waitForNetworkIdle 3000))
            (fun _ => ret tt).

(** The body of the loop of [executeActions]. *)
Definition executeAction (action : Action) : M E unit :=
  try_catch
    (switch action ;; settle)
    (fun error =>
       push ("Failed to execute " ++ type action ++ ": "
             ++ JsError.message error)).

(** [executeActions(actions)] *)
Definition executeActions (actions : list Action) : M E (list string) :=
  new_results ;;
  for_of actions executeAction ;;
  get_results.

(** [executeTask(url, task)] *)
Definition executeTask (url task : string) : M E TaskResult :=
  try_catch
    (call (Goto url 8000) (page_goto url 8000) ;;
     content <- extractPageContent ;;
     analysis <- analyzeContent content task ;;
     result <- executeActions analysis ;;
     ret (mkTaskResult true result "Task completed successfully"))
    (fun error =>
       throw (JsError.mk ("Task execution failed: " ++ JsError.message error))).

(** [new WebAgent(apiKey)], as far as the state goes: [this.browser] is
    [null]. *)
Definition new_WebAgent : M E unit := set_browser false.

(** [handler(req, res)]; the response written to [res] is the value.
    The destructuring of [req.body] comes after the method check and
    before the [try]: on an [undefined] or [null] body the route itself
    throws. *)
Definition handler (req : Request) : M E Response :=
  if negb (method req =? "POST")%string then
    ret (mkResponse 405 (json_of_error "Method not allowed"))
  else
    match body req with
    | BodyUndefined => throw destructure_of_undefined
    | BodyNull => throw destructure_of_null
    | BodyObject _ _ =>
        if falsy (body_url req) || falsy (body_task req) then
          ret (mkResponse 400 (json_of_error "URL and task are required"))
        else
          match body_url req, body_task req with
          | Some url, Some task =>
              try_catch
                (new_WebAgent ;;
                 initialize ;;
                 result <- executeTask url task ;;
                 close ;;
                 ret (mkResponse 200 (json_of_TaskResult result)))
                (fun error =>
                   call (ConsoleError error) (fun e => (Normal tt, e)) ;;
                   ret (mkResponse 500
                          (json_of_error (JsError.message error))))
          | _, _ =>
              (* not reached: an absent field is falsy *)
              ret (mkResponse 400
                     (json_of_error "URL and task are required"))
          end
    end.

End WebAgent.

(* ================================================================== *)
(** * Vocabulary of the properties                                    *)
(* ================================================================== *)

(** [contains s sub]: [sub] occurs in [s]. *)
Definition contains (s sub : string) : Prop :=
  exists before after, s = before ++ sub ++ after.

(** [free_of c s]: the character [c] does not occur in [s]. *)
Definition free_of (c : ascii) (s : string) : Prop :=
  Js.includes (Js.chr c) s = false.

(** [occurs_at pre c line before group]: the pattern [/<pre>([^c]+)c/]
    matches [line] right after [before], with [group] as its group 1. *)
Definition occurs_at (pre : string) (c : ascii) (line before group : string)
  : Prop :=
  group <> EmptyString /\ free_of c group /\
  exists after, line = before ++ pre ++ group ++ String c after.

(** [matches pre c line]: the pattern matches somewhere in [line]. *)
Definition matches (pre : string) (c : ascii) (line : string) : Prop :=
  exists before group, occurs_at pre c line before group.

(** [first_match pre c line group]: the leftmost match of the pattern in
    [line] has [group] as its group 1. *)
Definition first_match (pre : string) (c : ascii) (line group : string)
  : Prop :=
  exists before,
    occurs_at pre c line before group /\
    forall before' group',
      occurs_at pre c line before' group' ->
      String.length before <= String.length before'.

(** A string between double quotes. *)
Definition quoted (s : string) : string :=
  Js.chr Js.DQ ++ s ++ Js.chr Js.DQ.

Definition id_pattern : string := "id=" ++ Js.chr Js.DQ.
Definition class_pattern : string := "class=" ++ Js.chr Js.DQ.
Definition text_pattern : string := Js.chr Js.SQ.

(** The line classifier of [parseAnalysis]. *)
Definition keyword_line (line : string) : bool :=
  Js.includes "click" line || Js.includes "type" line
  || Js.includes "submit" line.

(** The types [executeActions] has a case for. *)
Definition known_type (action : Action) : bool :=
  (type action =? "click") || (type action =? "type")
  || (type action =? "submit").

(** The driver call of an action's case. *)
Definition driver_call (action : Action) : Call :=
  if (type action =? "click") then Click (selector action)
  else if (type action =? "type") then
    TypeInto (selector action) (value action)
  else EvaluateSubmit (selector action).

(** The driver operation behind [driver_call]. *)
Definition driver_op {E} `{Collaborators E} (action : Action)
  : E -> Completion unit * E :=
  if (type action =? "click") then page_click (selector action)
  else if (type action =? "type") then
    page_type (selector action) (value action)
  else page_evaluate_submit (selector action).

(** The description pushed after the driver call of a case returned. *)
Definition success_description (action : Action) : string :=
  (if (type action =? "click") then "Clicked "
   else if (type action =? "type") then "Typed into "
   else "Submitted form ") ++ Js.interpolate (selector action).

(** The description pushed by the [catch] of the loop. *)
Definition failure_description (action : Action) (error : JsError.t)
  : string :=
  "Failed to execute " ++ type action ++ ": " ++ JsError.message error.

(** A result is a failure when it is a description of the [catch]. *)
Definition is_failure (r : string) : bool :=
  match Js.strip_prefix "Failed to execute " r with
  | Some _ => true
  | None => false
  end.

(** A result describes the outcome of an action. *)
Definition describes (action : Action) (r : string) : Prop :=
  r = success_description action \/
  exists error, r = failure_description action error.

(** The collaborators' state after a settle wait from [e]. *)
Definition settled {E} `{Collaborators E} (e : E) : E :=
  snd (page_waitForNetworkIdle 3000 e).

(** The loop of [executeActions], run from an empty log and an empty
    [results], with the collaborators in state [e]. *)
Definition loop_from {E} `{Collaborators E} (e : E) (actions : list Action)
  : State E :=
  snd (for_of actions executeAction (mkState e [] false [])).

Definition is_wait (c : Call) : bool :=
  match c with
  | WaitForNetworkIdle _ => true
  | _ => false
  end.

(** The number of network-settle waits in a log. *)
Definition count_waits (l : list Call) : nat :=
  List.length (filter is_wait l).



(* ================================================================== *)
(** * A sample site                                                   *)
(* ================================================================== *)

(** A small concrete collaborator, used to run the agent: a site is
    reachable or not, has the elements some selectors resolve to, answers
    the plan request in a fixed way, and its network goes quiet within the
    settle timeout or not. *)
Module Sample.

Record Site : Type := mkSite {
  elements : list string;
  reachable : bool;
  completion : Completion (option string);
  quiet : bool
}.

Definition resolves (site : Site) (target : option string) : bool :=
  match target with
  | Some s => existsb (String.eqb s) (elements site)
  | None => false
  end.

Definition on_element (target : option string) (site : Site)
  : Completion unit * Site :=
  if resolves site target then (Normal tt, site)
  else
    (Thrown (JsError.mk ("No element found for selector: "
                         ++ Js.interpolate target)), site).

Definition navigate (site : Site) : Completion unit * Site :=
  if reachable site then (Normal tt, site)
  else (Thrown (JsError.mk "Navigation timeout of 8000 ms exceeded"), site).

Definition wait (site : Site) : Completion unit * Site :=
  if quiet site then (Normal tt, site)
  else (Thrown (JsError.mk "Timed out after waiting 3000ms"), site).

#[global] Instance site_collaborators : Collaborators Site := {|
  puppeteer_launch := fun site => (Normal tt, site);
  browser_newPage := fun site => (Normal tt, site);
  browser_close := fun site => (Normal tt, site);
  page_goto := fun _ _ => navigate;
  page_evaluate_content := fun site => (Normal (mkSnapshot "" [] [] []), site);
  page_click := on_element;
  page_type := fun target _ => on_element target;
  page_evaluate_submit := on_element;
  page_waitForNetworkIdle := fun _ => wait;
  openai_createChatCompletion := fun _ site => (completion site, site);
  split_of_null :=
    JsError.mk "Cannot read properties of null (reading 'split')";
  destructure_of_undefined :=
    JsError.mk
      "Cannot destructure property 'url' of 'req.body' as it is undefined.";
  destructure_of_null :=
    JsError.mk
      "Cannot destructure property 'url' of 'req.body' as it is null."
|}.

(** A fresh agent on a site. *)
Definition fresh (site : Site) : State Site := mkState site [] false [].

(** A page with a login form. *)
Definition login_page : Site :=
  mkSite ["#login-btn"; "#user"; "#form"] true
         (Normal (Some ("1. click the button with id=" ++ quoted "login-btn")))
         true.

(** The same page behind a network that never goes quiet. *)
Definition busy_page : Site :=
  mkSite ["#login-btn"] true (Normal None) false.

(** A site that does not answer. *)
Definition offline_page : Site :=
  mkSite [] false (Normal None) true.

(** A reachable page for which the plan request fails. *)
Definition unplanned_page : Site :=
  mkSite ["#login-btn"] true
         (Thrown (JsError.mk "Request failed with status code 429")) true.

(** A reachable page for which the plan comes back without content. *)
Definition empty_plan_page : Site :=
  mkSite ["#login-btn"] true (Normal None) true.

End Sample.

(** The request of the end-to-end example. *)
Definition login_request : Request :=
  mkRequest "POST"
            (BodyObject (Some "https://example.com/login")
                        (Some "log in with user test")).



Definition line_with_data_id : string :=
  "click the button data-id=" ++ quoted "7" ++ " id=" ++ quoted "foo".

Definition line_with_id_and_class : string :=
  "click id=" ++ quoted "foo" ++ " class=" ++ quoted "bar".

Definition type_hello_line : string := "type value=" ++ quoted "hello".

Definition click_login : Action := mkAction "click" (Some "#login-btn") None.

Definition click_missing : Action := mkAction "click" (Some "#missing") None.
Definition click_form : Action := mkAction "click" (Some "#form") None.
Definition hover_login : Action := mkAction "hover" (Some "#login-btn") None.

(* ================================================================== *)
(** * Further vocabulary and samples                                  *)
(* ================================================================== *)

Definition value_pattern : string := "value=" ++ Js.chr Js.DQ.

(** The calls of a log that are not settle waits. *)
Definition without_waits (l : list Call) : list Call :=
  filter (fun c => negb (is_wait c)) l.

(** The calls the loop of [executeActions] can make: the three driver
    operations on an element, and the settle wait with its timeout. *)
Definition executor_call (c : Call) : bool :=
  match c with
  | Click _ | TypeInto _ _ | EvaluateSubmit _ => true
  | WaitForNetworkIdle timeout => (timeout =? 3000)%N
  | _ => false
  end.

(** The shape of a parsed action: a value on 'type' actions only. *)
Definition parsed_shape (action : Action) : Prop :=
  (type action = "type" /\
   exists v, value action = Some v /\ free_of Js.DQ v) \/
  ((type action = "click" \/ type action = "submit") /\
   value action = None).

(** A plan text without any keyword. *)
Definition refusal_text : string :=
  "I am sorry, I cannot help with that." ++ Js.chr Js.LF
  ++ "Please try another page.".

(** A plan of two steps. *)
Definition two_step_plan : string :=
  "1. type into id=" ++ quoted "user" ++ " the value=" ++ quoted "test"
  ++ Js.chr Js.LF
  ++ "2. then submit the form id=" ++ quoted "form".

(** A line with two keywords and a value. *)
Definition type_then_click_line : string :=
  "type value=" ++ quoted "test" ++ " and click 'Go'".

(** A host around a sample site: its browser may fail to launch, to open
    a page, or to close. *)
Module SampleHost.

Record Host : Type := mkHost {
  site : Sample.Site;
  launches : bool;
  opens : bool;
  closes : bool
}.

Definition guarded (ok : bool) (what : string) (host : Host)
  : Completion unit * Host :=
  if ok then (Normal tt, host) else (Thrown (JsError.mk what), host).

Definition on_site {A : Type}
           (op : Sample.Site -> Completion A * Sample.Site) (host : Host)
  : Completion A * Host :=
  (fst (op (site host)), host).

#[global] Instance host_collaborators : Collaborators Host := {|
  puppeteer_launch := fun host =>
    guarded (launches host) "Failed to launch the browser process" host;
  browser_newPage := fun host =>
    guarded (opens host) "Protocol error (Target.createTarget)" host;
  browser_close := fun host =>
    guarded (closes host) "Protocol error (Browser.close)" host;
  page_goto := fun _ _ => on_site Sample.navigate;
  page_evaluate_content :=
    on_site (fun s => (Normal (mkSnapshot "" [] [] []), s));
  page_click := fun target => on_site (Sample.on_element target);
  page_type := fun target _ => on_site (Sample.on_element target);
  page_evaluate_submit := fun target => on_site (Sample.on_element target);
  page_waitForNetworkIdle := fun _ => on_site Sample.wait;
  openai_createChatCompletion :=
    fun _ => on_site (fun s => (Sample.completion s, s));
  split_of_null :=
    JsError.mk "Cannot read properties of null (reading 'split')";
  destructure_of_undefined :=
    JsError.mk
      "Cannot destructure property 'url' of 'req.body' as it is undefined.";
  destructure_of_null :=
    JsError.mk
      "Cannot destructure property 'url' of 'req.body' as it is null."
|}.

Definition fresh (host : Host) : State Host := mkState host [] false [].

(** The login page behind a browser that does not launch, that opens no
    page, and that does not close. *)
Definition no_launch : Host := mkHost Sample.login_page false true true.
Definition no_page : Host := mkHost Sample.login_page true false true.
Definition no_close : Host := mkHost Sample.login_page true true false.

End SampleHost.

(** A reachable page whose plan is the refusal. *)
Definition refused_page : Sample.Site :=
  Sample.mkSite ["#login-btn"] true (Normal (Some refusal_text)) true.

(* ================================================================== *)
(** * Strings: lemmas                                                 *)
(* ================================================================== *)

Section StringFacts.

Lemma append_assoc (a b c : string) : (a ++ b) ++ c = a ++ (b ++ c).
Proof.
  induction a as [|x a IH]; simpl; [reflexivity | now rewrite IH].
Qed.

Lemma append_nil_r (a : string) : a ++ EmptyString = a.
Proof.
  induction a as [|x a IH]; simpl; [reflexivity | now rewrite IH].
Qed.

Lemma length_append (a b : string) :
  String.length (a ++ b) = String.length a + String.length b.
Proof.
  induction a as [|x a IH]; simpl; [reflexivity | now rewrite IH].
Qed.

Lemma append_inv_length (a a' b b' : string) :
  a ++ b = a' ++ b' -> String.length a = String.length a' ->
  a = a' /\ b = b'.
Proof.
  revert a'; induction a as [|x a IH]; intros [|x' a'] Heq Hlen;
    simpl in *; try discriminate.
  - now split.
  - injection Heq as -> Heq. injection Hlen as Hlen.
    destruct (IH _ Heq Hlen) as [-> ->]. now split.
Qed.

Lemma strip_prefix_app (p s : string) : Js.strip_prefix p (p ++ s) = Some s.
Proof.
  induction p as [|a p IH]; simpl; [reflexivity|].
  now rewrite Ascii.eqb_refl.
Qed.

Lemma strip_prefix_inv (p s r : string) :
  Js.strip_prefix p s = Some r -> s = p ++ r.
Proof.
  revert s; induction p as [|a p IH]; intros s Hs; simpl in *.
  - now injection Hs as ->.
  - destruct s as [|b s]; [discriminate|].
    destruct (Ascii.eqb_spec a b) as [->|]; [|discriminate].
    now rewrite (IH _ Hs).
Qed.

Lemma includes_unfold (sub s : string) :
  Js.includes sub s =
  match Js.strip_prefix sub s with
  | Some _ => true
  | None =>
      match s with
      | EmptyString => false
      | String _ s' => Js.includes sub s'
      end
  end.
Proof. now destruct s. Qed.

(** [includes] is substring search. *)
Lemma includes_true_iff (sub s : string) :
  Js.includes sub s = true <-> contains s sub.
Proof.
  split.
  - induction s as [|c s IH]; simpl.
    + destruct (Js.strip_prefix sub EmptyString) as [r|] eqn:Hp;
        [|discriminate].
      intros _. exists EmptyString, r. simpl. now apply strip_prefix_inv.
    + destruct (Js.strip_prefix sub (String c s)) as [r|] eqn:Hp.
      * intros _. exists EmptyString, r. simpl. now apply strip_prefix_inv.
      * intros Hi. destruct (IH Hi) as (before & after & ->).
        now exists (String c before), after.
  - intros (before & after & ->).
    induction before as [|c before IH]; simpl.
    + now rewrite includes_unfold, strip_prefix_app.
    + now destruct (Js.strip_prefix sub (String c (before ++ sub ++ after))).
Qed.

Lemma free_of_cons (c x : ascii) (s : string) :
  free_of c (String x s) <-> x <> c /\ free_of c s.
Proof.
  unfold free_of, Js.chr. simpl.
  destruct (Ascii.eqb_spec c x) as [->|Hne]; split.
  - discriminate.
  - now intros [Hx _].
  - intros Hs. split; [congruence | exact Hs].
  - now intros [_ Hs].
Qed.

Lemma free_of_nil (c : ascii) : free_of c EmptyString.
Proof. reflexivity. Qed.

(** [span_not] stops at the first [c]. *)
Lemma span_not_app (c : ascii) (group after : string) :
  free_of c group ->
  Js.span_not c (group ++ String c after) = (group, String c after).
Proof.
  induction group as [|x group IH]; intros Hfree; simpl.
  - now rewrite Ascii.eqb_refl.
  - apply free_of_cons in Hfree as [Hx Hfree].
    destruct (Ascii.eqb_spec x c) as [->|_]; [contradiction|].
    now rewrite (IH Hfree).
Qed.

Lemma span_not_inv (c : ascii) (s run rest : string) :
  Js.span_not c s = (run, rest) ->
  s = run ++ rest /\ free_of c run /\
  (rest = EmptyString \/ exists after, rest = String c after).
Proof.
  revert run rest; induction s as [|x s IH]; intros run rest Hs;
    simpl in Hs.
  - injection Hs as <- <-. repeat split; auto.
  - destruct (Ascii.eqb_spec x c) as [->|Hne].
    + injection Hs as <- <-. repeat split; eauto.
    + destruct (Js.span_not c s) as [run' rest'].
      injection Hs as <- <-.
      destruct (IH _ _ eq_refl) as (-> & Hfree & Hrest).
      repeat split; auto. now apply free_of_cons.
Qed.

End StringFacts.

(* ================================================================== *)
(** * The pattern matcher against the meaning of the patterns         *)
(* ================================================================== *)

Section Patterns.

Variables (pre : string) (c : ascii).

Lemma occurs_at_cons (x : ascii) (s before group : string) :
  occurs_at pre c (String x s) (String x before) group <->
  occurs_at pre c s before group.
Proof.
  unfold occurs_at; split; intros (Hne & Hfree & after & Heq);
    repeat split; auto; exists after; simpl in *.
  - now injection Heq.
  - now rewrite Heq.
Qed.

Lemma occurs_at_head (x y : ascii) (s before group : string) :
  occurs_at pre c (String x s) (String y before) group -> x = y.
Proof.
  intros (_ & _ & after & Heq). simpl in Heq. now injection Heq.
Qed.

(** An attempt at the head succeeds exactly when the pattern occurs
    there. *)
Lemma match_here_complete (s group : string) :
  occurs_at pre c s EmptyString group ->
  Js.match_here pre c s = Some group.
Proof.
  intros (Hne & Hfree & after & ->). simpl. unfold Js.match_here.
  rewrite strip_prefix_app, (span_not_app _ _ _ Hfree).
  destruct group; [contradiction | reflexivity].
Qed.

Lemma match_here_sound (s group : string) :
  Js.match_here pre c s = Some group ->
  occurs_at pre c s EmptyString group.
Proof.
  unfold Js.match_here.
  destruct (Js.strip_prefix pre s) as [after0|] eqn:Hp; [|discriminate].
  destruct (Js.span_not c after0) as [run rest] eqn:Hspan.
  destruct run as [|x run]; [discriminate|].
  destruct rest as [|y rest]; [discriminate|].
  intros Hg; injection Hg as <-.
  apply strip_prefix_inv in Hp.
  destruct (span_not_inv _ _ _ _ Hspan) as (Hs & Hfree & Hrest).
  destruct Hrest as [Hrest | (after & Hrest)]; [discriminate|].
  injection Hrest as -> ->.
  repeat split; [discriminate | exact Hfree |].
  exists after. simpl. now rewrite Hp, Hs.
Qed.

(** The search returns the group of the leftmost match. *)
Lemma match_group_first (s group : string) :
  Js.match_group pre c s = Some group -> first_match pre c s group.
Proof.
  induction s as [|x s IH]; simpl.
  - destruct (Js.match_here pre c EmptyString) as [g|] eqn:Hh;
      [|discriminate].
    intros Hg; injection Hg as ->.
    exists EmptyString. split; [now apply match_here_sound|].
    intros; simpl; lia.
  - destruct (Js.match_here pre c (String x s)) as [g|] eqn:Hh.
    + intros Hg; injection Hg as ->.
      exists EmptyString. split; [now apply match_here_sound|].
      intros; simpl; lia.
    + intros Hg. destruct (IH Hg) as (before & Hocc & Hmin).
      exists (String x before). split; [now apply occurs_at_cons|].
      intros [|y before'] group' Hocc'.
      * apply match_here_complete in Hocc'. congruence.
      * pose proof (occurs_at_head _ _ _ _ _ Hocc') as <-.
        apply (proj1 (occurs_at_cons _ _ _ _)) in Hocc'.
        specialize (Hmin _ _ Hocc'). simpl; lia.
Qed.

(** The search fails only when the pattern matches nowhere. *)
Lemma match_group_none (s : string) :
  Js.match_group pre c s = None -> ~ matches pre c s.
Proof.
  induction s as [|x s IH]; simpl.
  - destruct (Js.match_here pre c EmptyString) as [g|] eqn:Hh;
      [discriminate|].
    intros _ ([|y before] & group & Hocc).
    + apply match_here_complete in Hocc. congruence.
    + destruct Hocc as (_ & _ & after & Heq). discriminate.
  - destruct (Js.match_here pre c (String x s)) as [g|] eqn:Hh;
      [discriminate|].
    intros Hg ([|y before] & group & Hocc).
    + apply match_here_complete in Hocc. congruence.
    + pose proof (occurs_at_head _ _ _ _ _ Hocc) as <-.
      apply (proj1 (occurs_at_cons _ _ _ _)) in Hocc.
      apply (IH Hg). now exists before, group.
Qed.

Lemma first_match_matches (s group : string) :
  first_match pre c s group -> matches pre c s.
Proof. intros (before & Hocc & _). now exists before, group. Qed.

Lemma matches_match_group (s : string) :
  matches pre c s -> exists group, Js.match_group pre c s = Some group.
Proof.
  intros Hm. destruct (Js.match_group pre c s) as [g|] eqn:Hg; eauto.
  now apply match_group_none in Hg.
Qed.

Lemma not_matches_match_group (s : string) :
  ~ matches pre c s -> Js.match_group pre c s = None.
Proof.
  intros Hm. destruct (Js.match_group pre c s) as [g|] eqn:Hg; auto.
  apply match_group_first, first_match_matches in Hg. contradiction.
Qed.

(** At one position the pattern has one group. *)
Lemma occurs_at_unique (s before group group' : string) :
  occurs_at pre c s before group -> occurs_at pre c s before group' ->
  group = group'.
Proof.
  revert s; induction before as [|x before IH]; intros s H1 H2.
  - apply match_here_complete in H1, H2. congruence.
  - destruct s as [|y s].
    + destruct H1 as (_ & _ & after & Heq). discriminate.
    + pose proof (occurs_at_head _ _ _ _ _ H1) as <-.
      apply (proj1 (occurs_at_cons _ _ _ _)) in H1.
      apply (proj1 (occurs_at_cons _ _ _ _)) in H2. eauto.
Qed.

Lemma occurs_at_same_length (s before before' group group' : string) :
  occurs_at pre c s before group -> occurs_at pre c s before' group' ->
  String.length before = String.length before' -> before = before'.
Proof.
  intros (_ & _ & after & H1) (_ & _ & after' & H2) Hlen.
  rewrite H1 in H2. now apply append_inv_length in H2 as [-> _].
Qed.

Lemma first_match_unique (s group group' : string) :
  first_match pre c s group -> first_match pre c s group' ->
  group = group'.
Proof.
  intros (b & Hocc & Hmin) (b' & Hocc' & Hmin').
  pose proof (Hmin _ _ Hocc'). pose proof (Hmin' _ _ Hocc).
  assert (b = b') as <-
      by (apply (occurs_at_same_length s b b' group group'); auto; lia).
  eapply occurs_at_unique; eauto.
Qed.

(** The search, characterised. *)
Lemma match_group_iff (s group : string) :
  Js.match_group pre c s = Some group <-> first_match pre c s group.
Proof.
  split; [apply match_group_first|].
  intros Hf.
  destruct (matches_match_group s (first_match_matches _ _ Hf)) as (g & Hg).
  rewrite Hg. f_equal.
  apply match_group_first in Hg. eapply first_match_unique; eauto.
Qed.

End Patterns.

(* ================================================================== *)
(** * Lines                                                           *)
(* ================================================================== *)

Section Lines.

Variable sep : ascii.

Lemma split_first_join (s : string) :
  String.concat (Js.chr sep)
                (fst (Js.split_first sep s) :: snd (Js.split_first sep s))
  = s.
Proof.
  induction s as [|x s IH]; [reflexivity|].
  simpl. destruct (Js.split_first sep s) as [piece pieces].
  destruct (Ascii.eqb_spec x sep) as [->|Hne].
  - simpl fst; simpl snd. simpl fst in IH; simpl snd in IH.
    change (String.concat (Js.chr sep) (EmptyString :: piece :: pieces))
      with (EmptyString ++ Js.chr sep
              ++ String.concat (Js.chr sep) (piece :: pieces)).
    now rewrite IH.
  - simpl fst in *; simpl snd in *.
    destruct pieces as [|piece' pieces]; simpl in *; now rewrite <- IH.
Qed.

(** Joining the pieces with the separator gives the text back. *)
Lemma split_join (s : string) :
  String.concat (Js.chr sep) (Js.split sep s) = s.
Proof.
  unfold Js.split. pose proof (split_first_join s) as Hj.
  now destruct (Js.split_first sep s).
Qed.

(** No piece holds the separator. *)
Lemma split_free (s : string) : Forall (free_of sep) (Js.split sep s).
Proof.
  unfold Js.split.
  assert (Hall : free_of sep (fst (Js.split_first sep s)) /\
                 Forall (free_of sep) (snd (Js.split_first sep s))).
  { induction s as [|x s IH]; simpl.
    - split; [apply free_of_nil | constructor].
    - destruct (Js.split_first sep s) as [piece pieces].
      destruct IH as [Hp Hps]. simpl in Hp, Hps.
      destruct (Ascii.eqb_spec x sep) as [->|Hne]; simpl.
      + split; [apply free_of_nil | now constructor].
      + split; [now apply free_of_cons | exact Hps]. }
  destruct (Js.split_first sep s); simpl in Hall.
  now constructor.
Qed.

(** A text without the separator is one piece. *)
Lemma split_single (s : string) :
  free_of sep s -> Js.split sep s = [s].
Proof.
  unfold Js.split. intros Hfree.
  assert (Js.split_first sep s = (s, [])) as ->; [|reflexivity].
  induction s as [|x s IH]; [reflexivity|].
  apply free_of_cons in Hfree as [Hx Hfree]. simpl.
  rewrite (IH Hfree).
  now destruct (Ascii.eqb_spec x sep).
Qed.

End Lines.

(* ================================================================== *)
(** * The parser                                                      *)
(* ================================================================== *)

Section Parser.

Lemma parseLine_app (actions : list Action) (line : string) :
  parseLine actions line = (actions ++ parseLine [] line)%list.
Proof.
  unfold parseLine.
  destruct (Js.includes "click" line); [reflexivity|].
  destruct (Js.includes "type" line); [reflexivity|].
  destruct (Js.includes "submit" line); [reflexivity|].
  now rewrite app_nil_r.
Qed.

Lemma fold_left_parseLine (lines : list string) (actions : list Action) :
  fold_left parseLine lines actions
  = (actions ++ flat_map (parseLine []) lines)%list.
Proof.
  revert actions; induction lines as [|line lines IH]; intros actions;
    simpl.
  - now rewrite app_nil_r.
  - now rewrite IH, (parseLine_app actions), <- app_assoc.
Qed.

Lemma parseAnalysis_flat_map (analysis : string) :
  parseAnalysis analysis
  = flat_map (parseLine []) (Js.split Js.LF analysis).
Proof. unfold parseAnalysis. now rewrite fold_left_parseLine. Qed.

(** A keyword line gives one action, of a known type; another line
    gives none. *)
Lemma parseLine_keyword (line : string) :
  keyword_line line = true ->
  exists action, parseLine [] line = [action] /\ known_type action = true.
Proof.
  unfold keyword_line, parseLine.
  destruct (Js.includes "click" line); [eexists; split; reflexivity|].
  destruct (Js.includes "type" line); [eexists; split; reflexivity|].
  destruct (Js.includes "submit" line); [eexists; split; reflexivity|].
  discriminate.
Qed.

Lemma parseLine_other (line : string) :
  keyword_line line = false -> parseLine [] line = [].
Proof.
  unfold keyword_line, parseLine.
  destruct (Js.includes "click" line); [discriminate|].
  destruct (Js.includes "type" line); [discriminate|].
  destruct (Js.includes "submit" line); [discriminate|].
  reflexivity.
Qed.

Lemma flat_map_parseLine (lines : list string) :
  Forall2 (fun line action => parseLine [] line = [action])
          (filter keyword_line lines)
          (flat_map (parseLine []) lines).
Proof.
  induction lines as [|line lines IH]; simpl; [constructor|].
  destruct (keyword_line line) eqn:Hk.
  - destruct (parseLine_keyword _ Hk) as (action & Ha & _).
    rewrite Ha. simpl. now constructor.
  - now rewrite (parseLine_other _ Hk).
Qed.

(** The parser only makes actions of the three known types. *)
Lemma parseAnalysis_known (analysis : string) :
  Forall (fun action => known_type action = true) (parseAnalysis analysis).
Proof.
  rewrite parseAnalysis_flat_map.
  induction (Js.split Js.LF analysis) as [|line lines IH]; simpl;
    [constructor|].
  apply Forall_app. split; [|exact IH].
  destruct (keyword_line line) eqn:Hk.
  - destruct (parseLine_keyword _ Hk) as (action & -> & Hknown).
    now constructor.
  - rewrite (parseLine_other _ Hk). constructor.
Qed.

Lemma keyword_line_iff (line : string) :
  keyword_line line = true <->
  contains line "click" \/ contains line "type" \/ contains line "submit".
Proof.
  unfold keyword_line.
  rewrite !orb_true_iff, !includes_true_iff. tauto.
Qed.

End Parser.

(** C3. For every plan text, the empty one included, [parseAnalysis] (a
    total function on strings: it returns, and has no way to throw) gives
    exactly one action for each line in which "click", "type" or "submit"
    occurs, in the order of the lines, and none for the other lines; so
    the number of actions is the number of such lines.  The lines are the
    pieces between line feeds: joined by line feeds they give the text
    back, and none holds a line feed. *)
Theorem parseAnalysis_one_action_per_keyword_line (analysis : string) :
  let lines := Js.split Js.LF analysis in
  String.concat (Js.chr Js.LF) lines = analysis /\
  Forall (free_of Js.LF) lines /\
  (forall line,
      keyword_line line = true <->
      contains line "click" \/ contains line "type" \/ contains line "submit")
  /\
  Forall2 (fun line action => parseLine [] line = [action])
          (filter keyword_line lines) (parseAnalysis analysis) /\
  List.length (parseAnalysis analysis)
  = List.length (filter keyword_line lines) /\
  parseAnalysis EmptyString = [].
Proof.
  intros lines. subst lines.
  split; [apply split_join|].
  split; [apply split_free|].
  split; [apply keyword_line_iff|].
  assert (HF2 := flat_map_parseLine (Js.split Js.LF analysis)).
  rewrite <- parseAnalysis_flat_map in HF2.
  split; [exact HF2|].
  split; [|reflexivity].
  symmetry. eapply Forall2_length; eauto.
Qed.

(* ================================================================== *)
(** * Selector resolution                                             *)
(* ================================================================== *)

Section Selector.

Lemma extractSelector_id (line group : string) :
  first_match id_pattern Js.DQ line group ->
  extractSelector line = Some ("#" ++ group).
Proof.
  intros Hf. apply match_group_iff in Hf.
  unfold extractSelector. fold id_pattern. now rewrite Hf.
Qed.

Lemma extractSelector_class (line group : string) :
  ~ matches id_pattern Js.DQ line ->
  first_match class_pattern Js.DQ line group ->
  extractSelector line = Some ("." ++ group).
Proof.
  intros Hid Hf. apply match_group_iff in Hf.
  apply not_matches_match_group in Hid.
  unfold extractSelector. fold id_pattern class_pattern.
  now rewrite Hid, Hf.
Qed.

Lemma extractSelector_text (line group : string) :
  ~ matches id_pattern Js.DQ line ->
  ~ matches class_pattern Js.DQ line ->
  first_match text_pattern Js.SQ line group ->
  extractSelector line = Some ("text=" ++ quoted group).
Proof.
  intros Hid Hclass Hf. apply match_group_iff in Hf.
  apply not_matches_match_group in Hid, Hclass.
  unfold extractSelector. fold id_pattern class_pattern text_pattern.
  now rewrite Hid, Hclass, Hf.
Qed.

Lemma extractSelector_null (line : string) :
  ~ matches id_pattern Js.DQ line ->
  ~ matches class_pattern Js.DQ line ->
  ~ matches text_pattern Js.SQ line ->
  extractSelector line = None.
Proof.
  intros Hid Hclass Htext.
  apply not_matches_match_group in Hid, Hclass, Htext.
  unfold extractSelector. fold id_pattern class_pattern text_pattern.
  now rewrite Hid, Hclass, Htext.
Qed.

Lemma matches_first_match (pre : string) (c : ascii) (line : string) :
  matches pre c line -> exists group, first_match pre c line group.
Proof.
  intros Hm. destruct (matches_match_group _ _ _ Hm) as (g & Hg).
  exists g. now apply match_group_first.
Qed.

Lemma parseLine_click (line : string) :
  Js.includes "click" line = true ->
  parseLine [] line = [mkAction "click" (extractSelector line) None].
Proof. unfold parseLine. now intros ->. Qed.

End Selector.

(** C5, as the code has it.  For every line, the selector is resolved by
    trying, in this order: the pattern [id="..."], giving ["#<id>"] for its
    leftmost match; else the pattern [class="..."], giving [".<class>"];
    else a single-quoted literal, giving [text="<literal>"]; else [null].
    So a line in which both the id and the class pattern match resolves to
    the id form, and a line with the keyword "click" whose leftmost
    [id="..."] match is [id="foo"] parses to a click action with selector
    ["#foo"]. *)
Theorem extractSelector_tries_id_class_text (line : string) :
  (forall group,
      first_match id_pattern Js.DQ line group ->
      extractSelector line = Some ("#" ++ group)) /\
  (forall group,
      ~ matches id_pattern Js.DQ line ->
      first_match class_pattern Js.DQ line group ->
      extractSelector line = Some ("." ++ group)) /\
  (forall group,
      ~ matches id_pattern Js.DQ line ->
      ~ matches class_pattern Js.DQ line ->
      first_match text_pattern Js.SQ line group ->
      extractSelector line = Some ("text=" ++ quoted group)) /\
  (~ matches id_pattern Js.DQ line ->
   ~ matches class_pattern Js.DQ line ->
   ~ matches text_pattern Js.SQ line ->
   extractSelector line = None) /\
  (matches id_pattern Js.DQ line ->
   matches class_pattern Js.DQ line ->
   exists group,
     first_match id_pattern Js.DQ line group /\
     extractSelector line = Some ("#" ++ group)) /\
  (Js.includes "click" line = true ->
   first_match id_pattern Js.DQ line "foo" ->
   parseLine [] line = [mkAction "click" (Some "#foo") None] /\
   forall analysis,
     In line (Js.split Js.LF analysis) ->
     In (mkAction "click" (Some "#foo") None) (parseAnalysis analysis)).
Proof.
  split; [intros; now apply extractSelector_id|].
  split; [intros; now apply extractSelector_class|].
  split; [intros; now apply extractSelector_text|].
  split; [intros; now apply extractSelector_null|].
  split.
  - intros Hid _. destruct (matches_first_match _ _ _ Hid) as (g & Hg).
    exists g. split; [exact Hg | now apply extractSelector_id].
  - intros Hclick Hfoo.
    assert (Hline : parseLine [] line = [mkAction "click" (Some "#foo") None]).
    { rewrite (parseLine_click _ Hclick).
      now rewrite (extractSelector_id _ _ Hfoo). }
    split; [exact Hline|].
    intros analysis Hin. rewrite parseAnalysis_flat_map.
    apply in_flat_map. exists line. split; [exact Hin|].
    rewrite Hline. now left.
Qed.

(** C5 at a line with an id and a class attribute: the hypotheses hold
    there and the id form comes out. *)
Lemma extractSelector_tries_id_class_text_witness :
  first_match id_pattern Js.DQ line_with_id_and_class "foo" /\
  matches class_pattern Js.DQ line_with_id_and_class /\
  Js.includes "click" line_with_id_and_class = true /\
  extractSelector line_with_id_and_class = Some "#foo" /\
  In (mkAction "click" (Some "#foo") None)
     (parseAnalysis line_with_id_and_class).
Proof.
  assert (Hfoo : first_match id_pattern Js.DQ line_with_id_and_class "foo")
    by (apply match_group_first; reflexivity).
  assert (Hclass : matches class_pattern Js.DQ line_with_id_and_class).
  { exists ("click id=" ++ quoted "foo" ++ " "), "bar".
    repeat split; [discriminate|]. now exists EmptyString. }
  assert (Hclick : Js.includes "click" line_with_id_and_class = true)
    by reflexivity.
  destruct (extractSelector_tries_id_class_text line_with_id_and_class)
    as (Hid & _ & _ & _ & _ & Hparse).
  refine (conj Hfoo (conj Hclass (conj Hclick (conj (Hid _ Hfoo) _)))).
  apply (proj2 (Hparse Hclick Hfoo) line_with_id_and_class).
  left; reflexivity.
Defined.

(** The claim C5 as written fails at a line that contains [id="foo"] and
    "click": the id pattern is not anchored, its leftmost match is inside
    [data-id="7"], and the selector is ["#7"]. *)
Lemma extractSelector_leftmost_id_wins :
  contains line_with_data_id ("id=" ++ quoted "foo") /\
  contains line_with_data_id "click" /\
  parseAnalysis line_with_data_id = [mkAction "click" (Some "#7") None] /\
  parseAnalysis line_with_data_id <> [mkAction "click" (Some "#foo") None].
Proof.
  split; [apply includes_true_iff; reflexivity|].
  split; [apply includes_true_iff; reflexivity|].
  split; [reflexivity | discriminate].
Qed.

(* ================================================================== *)
(** * The executor, one action at a time                              *)
(* ================================================================== *)

Ltac unfold_monad :=
  unfold try_catch, bind, ret, throw, call, push, new_results, get_results,
    set_browser, get_browser in *.

Section Executor.

Context {E : Type} `{Collaborators E}.

(** The settle wait logs one call, never throws and records nothing,
    whether the wait returns or times out. *)
Lemma settle_spec (st : State E) :
  settle st =
  (Normal tt,
   mkState (settled (env st)) (log st ++ [WaitForNetworkIdle 3000])
           (browser st) (results st)).
Proof.
  unfold settle, settled. unfold_monad.
  destruct (page_waitForNetworkIdle 3000 (env st)) as [[[]|err] e'];
    reflexivity.
Qed.

Lemma known_type_cases (action : Action) :
  known_type action = true ->
  type action = "click" \/ type action = "type" \/ type action = "submit".
Proof.
  unfold known_type. rewrite !orb_true_iff, !String.eqb_eq. tauto.
Qed.

(** A known action whose driver call returns. *)
Lemma executeAction_returned (action : Action) (st : State E) (e1 : E) :
  known_type action = true ->
  driver_op action (env st) = (Normal tt, e1) ->
  executeAction action st =
  (Normal tt,
   mkState (settled e1)
           (log st ++ [driver_call action; WaitForNetworkIdle 3000])
           (browser st) (results st ++ [success_description action])).
Proof.
  intros Hknown Hop.
  unfold executeAction, switch.
  unfold driver_op, driver_call, success_description in *.
  unfold try_catch at 1. unfold bind at 1.
  destruct (known_type_cases _ Hknown) as [Ht | [Ht | Ht]];
    rewrite Ht in *; simpl in *;
    unfold bind at 1; unfold call at 1; rewrite Hop;
    unfold push at 1; rewrite settle_spec; simpl;
    now rewrite <- app_assoc.
Qed.

(** A known action whose driver call throws: the wait is skipped. *)
Lemma executeAction_thrown (action : Action) (st : State E)
      (error : JsError.t) (e1 : E) :
  known_type action = true ->
  driver_op action (env st) = (Thrown error, e1) ->
  executeAction action st =
  (Normal tt,
   mkState e1 (log st ++ [driver_call action]) (browser st)
           (results st ++ [failure_description action error])).
Proof.
  intros Hknown Hop.
  unfold executeAction, switch.
  unfold driver_op, driver_call, failure_description in *.
  unfold try_catch at 1. unfold bind at 1.
  destruct (known_type_cases _ Hknown) as [Ht | [Ht | Ht]];
    rewrite Ht in *; simpl in *;
    unfold bind at 1; unfold call at 1; rewrite Hop;
    reflexivity.
Qed.

(** An action of another type: no driver call, no result, one wait. *)
Lemma executeAction_unknown (action : Action) (st : State E) :
  known_type action = false ->
  executeAction action st =
  (Normal tt,
   mkState (settled (env st)) (log st ++ [WaitForNetworkIdle 3000])
           (browser st) (results st)).
Proof.
  unfold known_type. rewrite !orb_false_iff. intros [[H1 H2] H3].
  unfold executeAction, switch. rewrite H1, H2, H3.
  unfold try_catch at 1. unfold bind at 1. unfold ret at 1.
  now rewrite settle_spec.
Qed.

(** What one iteration does to the log and to [results] does not depend
    on what they held before. *)
Lemma executeAction_frame (action : Action) (e : E) (l : list Call)
      (b : bool) (r : list string) :
  let s1 := snd (executeAction action (mkState e [] false [])) in
  executeAction action (mkState e l b r) =
  (Normal tt, mkState (env s1) (l ++ log s1) b (r ++ results s1)).
Proof.
  destruct (known_type action) eqn:Hknown.
  - destruct (driver_op action e) as [[[]|error] e1] eqn:Hop.
    + rewrite (executeAction_returned action (mkState e [] false []) e1),
        (executeAction_returned action (mkState e l b r) e1); auto.
    + rewrite (executeAction_thrown action (mkState e [] false []) error e1),
        (executeAction_thrown action (mkState e l b r) error e1); auto.
  - rewrite !executeAction_unknown by assumption. simpl.
    now rewrite app_nil_r.
Qed.

(** The loop: the same, for a whole sequence. *)
Lemma for_of_frame (actions : list Action) (e : E) (l : list Call)
      (b : bool) (r : list string) :
  let s := snd (for_of actions executeAction (mkState e [] false [])) in
  for_of actions executeAction (mkState e l b r) =
  (Normal tt, mkState (env s) (l ++ log s) b (r ++ results s)).
Proof.
  revert e l b r; induction actions as [|action actions IH];
    intros e l b r; simpl.
  - unfold ret. simpl. now rewrite !app_nil_r.
  - unfold bind.
    rewrite (executeAction_frame action e l b r).
    rewrite (executeAction_frame action e [] false []).
    set (s1 := snd (executeAction action (mkState e [] false []))).
    simpl.
    rewrite (IH (env s1) (l ++ log s1)%list b (r ++ results s1)%list).
    rewrite (IH (env s1) (log s1) false (results s1)).
    simpl. now rewrite <- !app_assoc.
Qed.

End Executor.

(* ================================================================== *)
(** * The executor, on a sequence                                     *)
(* ================================================================== *)

Section Sequence.

Context {E : Type} `{Collaborators E}.

Lemma loop_from_nil (e : E) : loop_from e [] = mkState e [] false [].
Proof. reflexivity. Qed.

Lemma loop_from_cons (e : E) (action : Action) (actions : list Action) :
  let s1 := loop_from e [action] in
  let s := loop_from (env s1) actions in
  loop_from e (action :: actions) =
  mkState (env s) (log s1 ++ log s) false (results s1 ++ results s).
Proof.
  unfold loop_from. simpl. unfold bind.
  rewrite (executeAction_frame action e [] false []).
  set (s1 := snd (executeAction action (mkState e [] false []))).
  simpl.
  now rewrite (for_of_frame actions (env s1) (log s1) false (results s1)).
Qed.

(** The three ways one iteration can go. *)
Lemma loop_from_one (e : E) (action : Action) :
  (known_type action = true /\
   exists e1, driver_op action e = (Normal tt, e1) /\
     loop_from e [action] =
     mkState (settled e1) [driver_call action; WaitForNetworkIdle 3000]
             false [success_description action]) \/
  (known_type action = true /\
   exists error e1, driver_op action e = (Thrown error, e1) /\
     loop_from e [action] =
     mkState e1 [driver_call action] false
             [failure_description action error]) \/
  (known_type action = false /\
   loop_from e [action] =
   mkState (settled e) [WaitForNetworkIdle 3000] false []).
Proof.
  unfold loop_from. simpl. unfold bind.
  rewrite (executeAction_frame action e [] false []). simpl.
  destruct (known_type action) eqn:Hknown.
  - destruct (driver_op action e) as [[[]|error] e1] eqn:Hop.
    + left. split; [reflexivity|]. exists e1. split; [reflexivity|].
      now rewrite (executeAction_returned action _ e1).
    + right; left. split; [reflexivity|]. exists error, e1.
      split; [reflexivity|].
      now rewrite (executeAction_thrown action _ error e1).
  - right; right. split; [reflexivity|].
    now rewrite executeAction_unknown.
Qed.

(** [executeActions] always returns; its results and the calls it adds
    to the log are those of the loop. *)
Lemma executeActions_spec (actions : list Action) (st : State E) :
  let s := loop_from (env st) actions in
  executeActions actions st =
  (Normal (results s),
   mkState (env s) (log st ++ log s) (browser st) (results s)).
Proof.
  unfold executeActions, loop_from. unfold_monad. simpl.
  now rewrite for_of_frame.
Qed.

Lemma is_failure_success (action : Action) :
  is_failure (success_description action) = false.
Proof.
  unfold success_description.
  destruct (type action =? "click"); [reflexivity|].
  destruct (type action =? "type"); reflexivity.
Qed.

Lemma is_failure_failure (action : Action) (error : JsError.t) :
  is_failure (failure_description action error) = true.
Proof.
  unfold is_failure, failure_description.
  now rewrite strip_prefix_app.
Qed.

Lemma is_wait_driver_call (action : Action) :
  is_wait (driver_call action) = false.
Proof.
  unfold driver_call.
  destruct (type action =? "click"); [reflexivity|].
  destruct (type action =? "type"); reflexivity.
Qed.

(** One result for each action of a known type, none for the others. *)
Lemma loop_from_length (actions : list Action) (e : E) :
  List.length (results (loop_from e actions))
  = List.length (filter known_type actions).
Proof.
  revert e; induction actions as [|action actions IH]; intros e;
    [reflexivity|].
  rewrite loop_from_cons. simpl. rewrite length_app, IH.
  destruct (loop_from_one e action)
    as [(Hk & e1 & _ & ->) | [(Hk & error & e1 & _ & ->) | (Hk & ->)]];
    rewrite Hk; reflexivity.
Qed.

(** The results follow the actions, each describing its own action. *)
Lemma loop_from_describes (actions : list Action) (e : E) :
  Forall (fun action => known_type action = true) actions ->
  Forall2 describes actions (results (loop_from e actions)).
Proof.
  revert e; induction actions as [|action actions IH]; intros e Hall.
  - constructor.
  - inversion Hall as [|? ? Hknown Hrest]; subst.
    rewrite loop_from_cons. simpl.
    destruct (loop_from_one e action)
      as [(_ & e1 & _ & ->) | [(_ & error & e1 & _ & ->) | (Hk & _)]];
      [| |congruence]; simpl; constructor; auto.
    + now left.
    + right. now exists error.
Qed.

(** Waits and failures add up to the number of actions: every action is
    followed by a wait, except those whose driver call threw. *)
Lemma loop_from_waits (actions : list Action) (e : E) :
  count_waits (log (loop_from e actions))
  + List.length (filter is_failure (results (loop_from e actions)))
  = List.length actions.
Proof.
  revert e; induction actions as [|action actions IH]; intros e;
    [reflexivity|].
  rewrite loop_from_cons. simpl. unfold count_waits in *.
  rewrite !filter_app, !length_app.
  specialize (IH (env (loop_from e [action]))).
  destruct (loop_from_one e action)
    as [(_ & e1 & _ & Hs) | [(_ & error & e1 & _ & Hs) | (_ & Hs)]];
    rewrite Hs in *; simpl in *;
    rewrite ?is_wait_driver_call, ?is_failure_success, ?is_failure_failure;
    simpl; lia.
Qed.


(** A throwing driver call costs its action a failure and nothing else:
    the rest of the sequence runs from the state the call left. *)
Lemma executeActions_cons_thrown (action : Action) (actions : list Action)
      (st : State E) (error : JsError.t) (e1 : E) :
  known_type action = true ->
  driver_op action (env st) = (Thrown error, e1) ->
  exists rs st',
    executeActions actions
      (mkState e1 (log st ++ [driver_call action]) (browser st) [])
    = (Normal rs, st') /\
    executeActions (action :: actions) st =
    (Normal (failure_description action error :: rs),
     mkState (env st') (log st') (browser st')
             (failure_description action error :: rs)).
Proof.
  intros Hknown Hop.
  rewrite !executeActions_spec. simpl.
  do 2 eexists. split; [reflexivity|].
  rewrite loop_from_cons. simpl.
  destruct (loop_from_one (env st) action)
    as [(_ & e' & Hop' & _) | [(_ & error' & e' & Hop' & Hs) | (Hk & _)]];
    [congruence | | congruence].
  rewrite Hop in Hop'. injection Hop' as <- <-.
  rewrite Hs. simpl. now rewrite <- app_assoc.
Qed.

End Sequence.

(* ================================================================== *)
(** * Properties of the executor                                      *)
(* ================================================================== *)




(** A line with the keyword "type" and [value="hello"] but no id, class
    or quoted text parses to a 'type' action with a [null] selector;
    executing it on the sample page sends the [null] to the driver and
    ends in a recorded failure, not in a throw. *)
Lemma type_line_without_target :
  parseAnalysis type_hello_line = [mkAction "type" None (Some "hello")] /\
  executeActions (parseAnalysis type_hello_line)
                 (Sample.fresh Sample.login_page) =
  (Normal ["Failed to execute type: No element found for selector: null"],
   mkState Sample.login_page [TypeInto None (Some "hello")] false
     ["Failed to execute type: No element found for selector: null"]).
Proof. split; reflexivity. Qed.

(** C2, as the code has it.  For a sequence of actions of the three known
    types (as every parsed action is), the executor returns as many
    results as there are actions, in the order of the actions, each
    describing its own action; a driver call that throws costs its action
    a failure and the remaining actions still run.  In particular, when
    of three actions only the driver call of the second throws, the three
    results are a success, a failure and a success, in this order. *)
Theorem executeActions_one_result_per_known_action
        {E : Type} `{Collaborators E}
        (actions : list Action) (st : State E) :
  Forall (fun action => known_type action = true) actions ->
  (exists rs st',
      executeActions actions st = (Normal rs, st') /\
      List.length rs = List.length actions /\
      Forall2 describes actions rs) /\
  (forall action rest error e1,
      actions = action :: rest ->
      driver_op action (env st) = (Thrown error, e1) ->
      exists rs st',
        executeActions rest
          (mkState e1 (log st ++ [driver_call action]) (browser st) [])
        = (Normal rs, st') /\
        fst (executeActions actions st)
        = Normal (failure_description action error :: rs)) /\
  (forall a1 a2 a3 error e1 e2 e3,
      actions = [a1; a2; a3] ->
      driver_op a1 (env st) = (Normal tt, e1) ->
      driver_op a2 (settled e1) = (Thrown error, e2) ->
      driver_op a3 e2 = (Normal tt, e3) ->
      fst (executeActions actions st)
      = Normal [success_description a1; failure_description a2 error;
                success_description a3] /\
      map is_failure [success_description a1; failure_description a2 error;
                      success_description a3]
      = [false; true; false]).
Proof.
  intros Hall. repeat split.
  - rewrite executeActions_spec. do 2 eexists.
    split; [reflexivity|]. split.
    + rewrite loop_from_length.
      clear st. induction Hall as [|action actions Hknown _ IH];
        [reflexivity|].
      simpl. rewrite Hknown. simpl. now rewrite IH.
    + now apply loop_from_describes.
  - intros action rest error e1 -> Hop.
    inversion Hall as [|? ? Hknown _]; subst.
    destruct (executeActions_cons_thrown action rest st error e1
                                         Hknown Hop)
      as (rs & st' & Hrest & Hall').
    exists rs, st'. split; [exact Hrest|]. now rewrite Hall'.
  - subst actions.
    inversion Hall as [|? ? Hk1 Hall1]; subst.
    inversion Hall1 as [|? ? Hk2 Hall2]; subst.
    inversion Hall2 as [|? ? Hk3 _]; subst.
    rewrite executeActions_spec. simpl.
    rewrite loop_from_cons. simpl.
    destruct (loop_from_one (env st) a1)
      as [(_ & e' & Hop & ->) | [(_ & ? & e' & Hop & _) | (Hk & _)]];
      [| congruence | congruence].
    assert (e' = e1) as -> by congruence. simpl.
    rewrite loop_from_cons. simpl.
    destruct (loop_from_one (settled e1) a2)
      as [(_ & e' & Hop2 & _) | [(_ & err & e' & Hop2 & ->) | (Hk & _)]];
      [congruence | | congruence].
    assert (err = error /\ e' = e2) as [-> ->] by (split; congruence).
    simpl.
    rewrite loop_from_cons. simpl.
    destruct (loop_from_one e2 a3)
      as [(_ & e' & Hop3 & ->) | [(_ & ? & e' & Hop3 & _) | (Hk & _)]];
      [| congruence | congruence].
    reflexivity.
  - simpl. now rewrite !is_failure_success, is_failure_failure.
Qed.

(** C2 on the sample login page: of three clicks the second names an
    element that is not there. *)
Lemma executeActions_one_result_per_known_action_witness :
  Forall (fun action => known_type action = true)
         [click_login; click_missing; click_form] /\
  fst (executeActions [click_login; click_missing; click_form]
                      (Sample.fresh Sample.login_page))
  = Normal ["Clicked #login-btn";
            "Failed to execute click: No element found for selector: #missing";
            "Clicked #form"].
Proof.
  assert (Hall : Forall (fun action => known_type action = true)
                        [click_login; click_missing; click_form])
    by (repeat constructor).
  refine (conj Hall _).
  exact (proj1 (proj2 (proj2 (executeActions_one_result_per_known_action
                                [click_login; click_missing; click_form]
                                (Sample.fresh Sample.login_page) Hall))
                      click_login click_missing click_form
                      (JsError.mk "No element found for selector: #missing")
                      Sample.login_page Sample.login_page Sample.login_page
                      eq_refl eq_refl eq_refl eq_refl)).
Defined.

(** The claim C2 as written fails for a sequence that holds an action of
    another type: one action, no result. *)
Lemma executeActions_no_result_for_hover :
  fst (executeActions [hover_login] (Sample.fresh Sample.login_page))
  = Normal [] /\
  List.length (@nil string) <> List.length [hover_login].
Proof. split; [reflexivity | discriminate]. Qed.

(** X9.  The settle wait, as the code makes it.  It is the last step inside
    the [try] of the loop: it is made once, with a timeout of 3000, after
    every action whose driver call returned and after every action of
    another type.  A wait that times out is swallowed: the loop goes on
    and nothing is recorded for it.  Over a sequence, the waits and the
    failures add up to the number of actions. *)
Lemma executeActions_settle_accounting {E : Type} `{Collaborators E}
      (action : Action) (actions : list Action) (st : State E) :
  (forall e1,
      known_type action = true ->
      driver_op action (env st) = (Normal tt, e1) ->
      executeAction action st =
      (Normal tt,
       mkState (settled e1)
               (log st ++ [driver_call action; WaitForNetworkIdle 3000])
               (browser st) (results st ++ [success_description action]))) /\
  (known_type action = false ->
   executeAction action st =
   (Normal tt,
    mkState (settled (env st)) (log st ++ [WaitForNetworkIdle 3000])
            (browser st) (results st))) /\
  (forall error e1,
      page_waitForNetworkIdle 3000 (env st) = (Thrown error, e1) ->
      settle st =
      (Normal tt,
       mkState e1 (log st ++ [WaitForNetworkIdle 3000])
               (browser st) (results st))) /\
  (exists rs st',
      executeActions actions st = (Normal rs, st') /\
      count_waits (log st') + List.length (filter is_failure rs)
      = count_waits (log st) + List.length actions).
Proof.
  split; [intros; now apply executeAction_returned|].
  split; [intros; now apply executeAction_unknown|].
  split.
  - intros error e1 Hwait. rewrite settle_spec. unfold settled.
    now rewrite Hwait.
  - rewrite executeActions_spec. do 2 eexists. split; [reflexivity|].
    simpl. pose proof (loop_from_waits actions (env st)) as Hsum.
    unfold count_waits in *. rewrite filter_app, length_app. lia.
Qed.

(** On a page whose network never goes quiet, the click returns, the wait
    times out, and the recorded result is the success. *)
Lemma executeAction_settle_timeout_swallowed :
  page_waitForNetworkIdle 3000 Sample.busy_page
  = (Thrown (JsError.mk "Timed out after waiting 3000ms"), Sample.busy_page)
  /\
  executeAction click_login (Sample.fresh Sample.busy_page) =
  (Normal tt,
   mkState Sample.busy_page
           [Click (Some "#login-btn"); WaitForNetworkIdle 3000]
           false ["Clicked #login-btn"]).
Proof. split; reflexivity. Qed.

(** C7 against the code.  The claim asks for one settle wait after every
    action, failed ones included, which is also what the comment above the
    wait says ("after each action").  The wait is inside the [try]: when
    the driver call of an action throws, control goes to the [catch], the
    failure is recorded, and the wait is skipped: the iteration adds the
    driver call to the log and nothing else. *)
Theorem executeAction_skips_settle_when_call_throws
        {E : Type} `{Collaborators E}
        (action : Action) (st : State E) (error : JsError.t) (e1 : E) :
  known_type action = true ->
  driver_op action (env st) = (Thrown error, e1) ->
  executeAction action st =
  (Normal tt,
   mkState e1 (log st ++ [driver_call action]) (browser st)
           (results st ++ [failure_description action error])) /\
  count_waits (log (snd (executeAction action st))) = count_waits (log st).
Proof.
  intros Hknown Hop.
  rewrite (executeAction_thrown action st error e1 Hknown Hop).
  split; [reflexivity|]. simpl. unfold count_waits.
  rewrite filter_app, length_app. simpl.
  now rewrite is_wait_driver_call.
Qed.

(** C7 at a click on an element that is not there: the failure is
    recorded and the log holds the click and no wait. *)
Lemma executeAction_skips_settle_when_call_throws_witness :
  known_type click_missing = true /\
  driver_op click_missing Sample.login_page
  = (Thrown (JsError.mk "No element found for selector: #missing"),
     Sample.login_page) /\
  executeAction click_missing (Sample.fresh Sample.login_page) =
  (Normal tt,
   mkState Sample.login_page [Click (Some "#missing")] false
     ["Failed to execute click: No element found for selector: #missing"]).
Proof.
  refine (conj eq_refl (conj eq_refl _)).
  exact (proj1 (executeAction_skips_settle_when_call_throws
                  click_missing (Sample.fresh Sample.login_page)
                  (JsError.mk "No element found for selector: #missing")
                  Sample.login_page eq_refl eq_refl)).
Defined.

(** The same over [executeActions]: one action, one failure, no wait. *)
Lemma executeActions_no_settle_after_failure :
  executeActions [click_missing] (Sample.fresh Sample.login_page) =
  (Normal ["Failed to execute click: No element found for selector: #missing"],
   mkState Sample.login_page [Click (Some "#missing")] false
     ["Failed to execute click: No element found for selector: #missing"]) /\
  count_waits
    (log (snd (executeActions [click_missing]
                              (Sample.fresh Sample.login_page)))) = 0.
Proof. split; reflexivity. Qed.







(* ================================================================== *)
(** * The task and the route                                          *)
(* ================================================================== *)

Section Task.

Context {E : Type} `{Collaborators E}.

Variables (url task : string) (st : State E).

Ltac run_stage :=
  unfold bind at 1; unfold call at 1; simpl.

Lemma executeTask_navigation_thrown (error : JsError.t) (e1 : E) :
  page_goto url 8000 (env st) = (Thrown error, e1) ->
  executeTask url task st =
  (Thrown (JsError.mk ("Task execution failed: " ++ JsError.message error)),
   mkState e1 (log st ++ [Goto url 8000]) (browser st) (results st)).
Proof.
  intros Hgoto. unfold executeTask. unfold try_catch at 1.
  run_stage. now rewrite Hgoto.
Qed.

Lemma executeTask_extraction_thrown (e1 : E) (error : JsError.t) (e2 : E) :
  page_goto url 8000 (env st) = (Normal tt, e1) ->
  page_evaluate_content e1 = (Thrown error, e2) ->
  executeTask url task st =
  (Thrown (JsError.mk ("Task execution failed: " ++ JsError.message error)),
   mkState e2 ((log st ++ [Goto url 8000]) ++ [EvaluateContent])
           (browser st) (results st)).
Proof.
  intros Hgoto Hextract. unfold executeTask, extractPageContent.
  unfold try_catch at 1. run_stage. rewrite Hgoto.
  run_stage. now rewrite Hextract.
Qed.

Lemma executeTask_plan_thrown (e1 : E) (content : PageSnapshot) (e2 : E)
      (error : JsError.t) (e3 : E) :
  page_goto url 8000 (env st) = (Normal tt, e1) ->
  page_evaluate_content e1 = (Normal content, e2) ->
  openai_createChatCompletion (build_prompt content task) e2
  = (Thrown error, e3) ->
  executeTask url task st =
  (Thrown (JsError.mk ("Task execution failed: " ++ JsError.message error)),
   mkState e3
           (((log st ++ [Goto url 8000]) ++ [EvaluateContent])
              ++ [CreateChatCompletion (build_prompt content task)])
           (browser st) (results st)).
Proof.
  intros Hgoto Hextract Hplan.
  unfold executeTask, extractPageContent, analyzeContent.
  unfold try_catch at 1. run_stage. rewrite Hgoto.
  run_stage. rewrite Hextract. unfold bind at 1.
  run_stage. now rewrite Hplan.
Qed.

Lemma executeTask_parse_thrown (e1 : E) (content : PageSnapshot) (e2 e3 : E) :
  page_goto url 8000 (env st) = (Normal tt, e1) ->
  page_evaluate_content e1 = (Normal content, e2) ->
  openai_createChatCompletion (build_prompt content task) e2
  = (Normal None, e3) ->
  executeTask url task st =
  (Thrown (JsError.mk ("Task execution failed: "
                       ++ JsError.message split_of_null)),
   mkState e3
           (((log st ++ [Goto url 8000]) ++ [EvaluateContent])
              ++ [CreateChatCompletion (build_prompt content task)])
           (browser st) (results st)).
Proof.
  intros Hgoto Hextract Hplan.
  unfold executeTask, extractPageContent, analyzeContent.
  unfold try_catch at 1. run_stage. rewrite Hgoto.
  run_stage. rewrite Hextract. unfold bind at 1.
  run_stage. now rewrite Hplan.
Qed.

Lemma executeTask_completed (e1 : E) (content : PageSnapshot) (e2 : E)
      (analysis : string) (e3 : E) :
  page_goto url 8000 (env st) = (Normal tt, e1) ->
  page_evaluate_content e1 = (Normal content, e2) ->
  openai_createChatCompletion (build_prompt content task) e2
  = (Normal (Some analysis), e3) ->
  exists rs st',
    executeActions (parseAnalysis analysis)
      (mkState e3
         (((log st ++ [Goto url 8000]) ++ [EvaluateContent])
            ++ [CreateChatCompletion (build_prompt content task)])
         (browser st) (results st))
    = (Normal rs, st') /\
    executeTask url task st =
    (Normal (mkTaskResult true rs "Task completed successfully"), st').
Proof.
  intros Hgoto Hextract Hplan.
  unfold executeTask, extractPageContent, analyzeContent.
  unfold try_catch at 1. run_stage. rewrite Hgoto.
  run_stage. rewrite Hextract. unfold bind at 1.
  run_stage. rewrite Hplan.
  unfold ret at 1. unfold bind at 1.
  rewrite executeActions_spec. unfold ret. eauto.
Qed.

(** [executeTask] ends in one of two ways. *)
Lemma executeTask_outcomes :
  (exists rs st',
      executeTask url task st =
      (Normal (mkTaskResult true rs "Task completed successfully"), st')) \/
  (exists error st',
      executeTask url task st =
      (Thrown (JsError.mk ("Task execution failed: "
                           ++ JsError.message error)), st')).
Proof.
  destruct (page_goto url 8000 (env st)) as [[[]|error] e1] eqn:Hgoto.
  - destruct (page_evaluate_content e1) as [[content|error] e2] eqn:Hextract.
    + destruct (openai_createChatCompletion (build_prompt content task) e2)
        as [[[analysis|]|error] e3] eqn:Hplan.
      * left.
        destruct (executeTask_completed _ _ _ _ _ Hgoto Hextract Hplan)
          as (rs & st' & _ & Hrun).
        eauto.
      * right. rewrite (executeTask_parse_thrown _ _ _ _ Hgoto Hextract Hplan).
        eauto.
      * right. rewrite (executeTask_plan_thrown _ _ _ _ _ Hgoto Hextract Hplan).
        eauto.
    + right. rewrite (executeTask_extraction_thrown _ _ _ Hgoto Hextract).
      eauto.
  - right. rewrite (executeTask_navigation_thrown _ _ Hgoto). eauto.
Qed.

End Task.

(** C8.  An error thrown by the navigation, by the extraction, by the
    plan request, or by the parsing of a plan that came back without
    content is caught once by [executeTask] and thrown again as one error,
    ["Task execution failed: <message>"]; the task stops there, no action
    is executed and the error carries no results.  When no stage throws,
    [executeTask] returns [{success: true, result, message: "Task
    completed successfully"}] with the results of the executor. *)
Theorem executeTask_wraps_stage_errors {E : Type} `{Collaborators E}
        (url task : string) (st : State E) :
  let wrapped (error : JsError.t) :=
    JsError.mk ("Task execution failed: " ++ JsError.message error) in
  let navigated := (log st ++ [Goto url 8000])%list in
  let extracted := (navigated ++ [EvaluateContent])%list in
  let planned content :=
    (extracted ++ [CreateChatCompletion (build_prompt content task)])%list in
  (forall error e1,
      page_goto url 8000 (env st) = (Thrown error, e1) ->
      executeTask url task st =
      (Thrown (wrapped error),
       mkState e1 navigated (browser st) (results st))) /\
  (forall e1 error e2,
      page_goto url 8000 (env st) = (Normal tt, e1) ->
      page_evaluate_content e1 = (Thrown error, e2) ->
      executeTask url task st =
      (Thrown (wrapped error),
       mkState e2 extracted (browser st) (results st))) /\
  (forall e1 content e2 error e3,
      page_goto url 8000 (env st) = (Normal tt, e1) ->
      page_evaluate_content e1 = (Normal content, e2) ->
      openai_createChatCompletion (build_prompt content task) e2
      = (Thrown error, e3) ->
      executeTask url task st =
      (Thrown (wrapped error),
       mkState e3 (planned content) (browser st) (results st))) /\
  (forall e1 content e2 e3,
      page_goto url 8000 (env st) = (Normal tt, e1) ->
      page_evaluate_content e1 = (Normal content, e2) ->
      openai_createChatCompletion (build_prompt content task) e2
      = (Normal None, e3) ->
      executeTask url task st =
      (Thrown (wrapped split_of_null),
       mkState e3 (planned content) (browser st) (results st))) /\
  (forall e1 content e2 analysis e3,
      page_goto url 8000 (env st) = (Normal tt, e1) ->
      page_evaluate_content e1 = (Normal content, e2) ->
      openai_createChatCompletion (build_prompt content task) e2
      = (Normal (Some analysis), e3) ->
      exists rs st',
        executeActions (parseAnalysis analysis)
          (mkState e3 (planned content) (browser st) (results st))
        = (Normal rs, st') /\
        executeTask url task st =
        (Normal (mkTaskResult true rs "Task completed successfully"), st')) /\
  ((exists rs st',
       executeTask url task st =
       (Normal (mkTaskResult true rs "Task completed successfully"), st')) \/
   (exists error st',
       executeTask url task st = (Thrown (wrapped error), st'))).
Proof.
  intros wrapped navigated extracted planned.
  subst wrapped navigated extracted planned.
  split; [intros; now apply executeTask_navigation_thrown|].
  split; [intros; now eapply executeTask_extraction_thrown; eauto|].
  split; [intros; now eapply executeTask_plan_thrown; eauto|].
  split; [intros; now eapply executeTask_parse_thrown; eauto|].
  split; [intros; now eapply executeTask_completed; eauto|].
  apply executeTask_outcomes.
Qed.

(** C8 on a site that does not answer: the navigation times out and the
    task ends with the one wrapped error, after the one call. *)
Lemma executeTask_wraps_stage_errors_witness :
  page_goto "https://example.com/login" 8000 Sample.offline_page
  = (Thrown (JsError.mk "Navigation timeout of 8000 ms exceeded"),
     Sample.offline_page) /\
  executeTask "https://example.com/login" "log in with user test"
              (Sample.fresh Sample.offline_page) =
  (Thrown (JsError.mk
             "Task execution failed: Navigation timeout of 8000 ms exceeded"),
   mkState Sample.offline_page [Goto "https://example.com/login" 8000]
           false []).
Proof.
  refine (conj eq_refl _).
  exact (proj1 (executeTask_wraps_stage_errors
                  "https://example.com/login" "log in with user test"
                  (Sample.fresh Sample.offline_page))
               (JsError.mk "Navigation timeout of 8000 ms exceeded")
               Sample.offline_page eq_refl).
Defined.

Section Route.

Context {E : Type} `{Collaborators E}.

Lemma initialize_spec (st : State E) :
  initialize st =
  match puppeteer_launch (env st) with
  | (Thrown error, e1) =>
      (Thrown error,
       mkState e1 (log st ++ [Launch]) (browser st) (results st))
  | (Normal _, e1) =>
      let (r, e2) := browser_newPage e1 in
      (r, mkState e2 (log st ++ [Launch; NewPage]) true (results st))
  end.
Proof.
  unfold initialize. unfold_monad.
  destruct (puppeteer_launch (env st)) as [[[]|error] e1]; [|reflexivity].
  simpl. destruct (browser_newPage e1) as [r e2].
  now rewrite <- app_assoc.
Qed.

Lemma close_spec (st : State E) :
  close st =
  if browser st then
    let (r, e1) := browser_close (env st) in
    (r, mkState e1 (log st ++ [BrowserClose]) (browser st) (results st))
  else (Normal tt, st).
Proof.
  unfold close. unfold_monad.
  destruct st as [e l b r]. simpl.
  destruct b; simpl; [|reflexivity].
  now destruct (browser_close e).
Qed.

Lemma body_fields (req : Request) (url task : string) :
  body_url req = Some url -> body_task req = Some task ->
  body req = BodyObject (Some url) (Some task).
Proof.
  unfold body_url, body_task.
  destruct (body req) as [| |u t]; try discriminate.
  now intros -> ->.
Qed.

(** The route on a request that passes its two checks: a new agent, whose
    browser is not assigned, is initialised, runs the task and is
    closed. *)
Lemma handler_valid (req : Request) (url task : string) (st : State E) :
  method req = "POST" ->
  body_url req = Some url -> url <> EmptyString ->
  body_task req = Some task -> task <> EmptyString ->
  handler req st =
  match initialize (mkState (env st) (log st) false (results st)) with
  | (Thrown error, st1) =>
      (Normal (mkResponse 500 (json_of_error (JsError.message error))),
       mkState (env st1) (log st1 ++ [ConsoleError error]) (browser st1)
               (results st1))
  | (Normal _, st1) =>
      match executeTask url task st1 with
      | (Thrown error, st2) =>
          (Normal (mkResponse 500 (json_of_error (JsError.message error))),
           mkState (env st2) (log st2 ++ [ConsoleError error]) (browser st2)
                   (results st2))
      | (Normal result, st2) =>
          match close st2 with
          | (Thrown error, st3) =>
              (Normal (mkResponse 500
                         (json_of_error (JsError.message error))),
               mkState (env st3) (log st3 ++ [ConsoleError error])
                       (browser st3) (results st3))
          | (Normal _, st3) =>
              (Normal (mkResponse 200 (json_of_TaskResult result)), st3)
          end
      end
  end.
Proof.
  intros Hmethod Hurl Hurl_ne Htask Htask_ne.
  pose proof (body_fields _ _ _ Hurl Htask) as Hbody.
  unfold handler. rewrite Hmethod, Hbody, Hurl, Htask. simpl.
  apply String.eqb_neq in Hurl_ne, Htask_ne.
  rewrite Hurl_ne, Htask_ne. simpl.
  unfold try_catch at 1. unfold bind at 1.
  unfold new_WebAgent at 1. unfold set_browser at 1.
  unfold bind at 1.
  destruct (initialize (mkState (env st) (log st) false (results st)))
    as [[[]|error] st1]; [|reflexivity].
  unfold bind at 1.
  destruct (executeTask url task st1) as [[result|error] st2];
    [|reflexivity].
  unfold bind at 1.
  destruct (close st2) as [[[]|error] st3]; reflexivity.
Qed.

Lemma handler_not_post (req : Request) (st : State E) :
  method req <> "POST" ->
  handler req st =
  (Normal (mkResponse 405 (json_of_error "Method not allowed")), st).
Proof.
  intros Hm. unfold handler. apply String.eqb_neq in Hm. now rewrite Hm.
Qed.

Lemma handler_undefined_body (req : Request) (st : State E) :
  method req = "POST" -> body req = BodyUndefined ->
  handler req st = (Thrown destructure_of_undefined, st).
Proof. intros Hm Hb. unfold handler. now rewrite Hm, Hb. Qed.

Lemma handler_null_body (req : Request) (st : State E) :
  method req = "POST" -> body req = BodyNull ->
  handler req st = (Thrown destructure_of_null, st).
Proof. intros Hm Hb. unfold handler. now rewrite Hm, Hb. Qed.

Lemma handler_bad_body (req : Request) (url task : option string)
      (st : State E) :
  method req = "POST" ->
  body req = BodyObject url task ->
  url = None \/ url = Some EmptyString \/
  task = None \/ task = Some EmptyString ->
  handler req st =
  (Normal (mkResponse 400 (json_of_error "URL and task are required")), st).
Proof.
  unfold handler, body_url, body_task. intros -> -> Hbody. simpl.
  destruct url as [url|], task as [task|];
    simpl; rewrite ?orb_true_r; try reflexivity.
  destruct (String.eqb_spec url EmptyString) as [->|Hu]; [reflexivity|].
  destruct (String.eqb_spec task EmptyString) as [->|Ht]; [reflexivity|].
  exfalso. destruct Hbody as [Hb | [Hb | [Hb | Hb]]]; congruence.
Qed.

End Route.

(** On the path where the task completes, the route closes the browser:
    [BrowserClose] is the last call before the response. *)
Lemma handler_closes_after_completed_task :
  handler login_request (Sample.fresh Sample.login_page) =
  (Normal
     (mkResponse 200
        (JsObject
           [("success", JsBoolean true);
            ("result", JsArray [JsString "Clicked #login-btn"]);
            ("message", JsString "Task completed successfully")])),
   mkState Sample.login_page
     [Launch; NewPage; Goto "https://example.com/login" 8000;
      EvaluateContent;
      CreateChatCompletion (mkPrompt "log in with user test" "" [] [] []);
      Click (Some "#login-btn"); WaitForNetworkIdle 3000; BrowserClose]
     true ["Clicked #login-btn"]).
Proof. reflexivity. Qed.

(** C9 against the code.  The claim asks for the browser to be released on
    every exit path of the route.  The route calls [agent.close()] after
    [executeTask] inside the same [try]: when [executeTask] throws, control
    goes to the [catch], which answers 500, and [close()] is skipped.  The
    calls of the route are then those made up to the throw followed by the
    one [console.error]: no [BrowserClose] follows, and [this.browser] is
    still assigned. *)
Theorem handler_skips_close_when_task_throws {E : Type} `{Collaborators E}
        (req : Request) (url task : string) (st : State E) (e1 e2 : E)
        (error : JsError.t) (st' : State E) :
  method req = "POST" ->
  body_url req = Some url -> url <> EmptyString ->
  body_task req = Some task -> task <> EmptyString ->
  puppeteer_launch (env st) = (Normal tt, e1) ->
  browser_newPage e1 = (Normal tt, e2) ->
  executeTask url task
    (mkState e2 ((log st ++ [Launch]) ++ [NewPage]) true (results st))
  = (Thrown error, st') ->
  handler req st =
  (Normal (mkResponse 500 (json_of_error (JsError.message error))),
   mkState (env st') (log st' ++ [ConsoleError error]) (browser st')
           (results st')).
Proof.
  intros Hmethod Hurl Hurl_ne Htask Htask_ne Hlaunch Hpage Hrun.
  rewrite (handler_valid req url task st Hmethod Hurl Hurl_ne Htask Htask_ne).
  rewrite initialize_spec. simpl. rewrite Hlaunch, Hpage.
  rewrite <- app_assoc in Hrun. simpl in Hrun.
  now rewrite Hrun.
Qed.

(** C9 at a request for a site that does not answer: the browser is
    launched, the navigation times out, the route answers 500, and the
    log ends without [BrowserClose]. *)
Lemma handler_skips_close_when_task_throws_witness :
  method login_request = "POST" /\
  executeTask "https://example.com/login" "log in with user test"
    (mkState Sample.offline_page [Launch; NewPage] true [])
  = (Thrown (JsError.mk
               "Task execution failed: Navigation timeout of 8000 ms exceeded"),
     mkState Sample.offline_page
             [Launch; NewPage; Goto "https://example.com/login" 8000]
             true []) /\
  handler login_request (Sample.fresh Sample.offline_page) =
  (Normal
     (mkResponse 500
        (json_of_error
           "Task execution failed: Navigation timeout of 8000 ms exceeded")),
   mkState Sample.offline_page
     [Launch; NewPage; Goto "https://example.com/login" 8000;
      ConsoleError
        (JsError.mk
           "Task execution failed: Navigation timeout of 8000 ms exceeded")]
     true []).
Proof.
  refine (conj eq_refl (conj eq_refl _)).
  refine (handler_skips_close_when_task_throws
            login_request "https://example.com/login" "log in with user test"
            (Sample.fresh Sample.offline_page)
            Sample.offline_page Sample.offline_page
            (JsError.mk
               "Task execution failed: Navigation timeout of 8000 ms exceeded")
            (mkState Sample.offline_page
               [Launch; NewPage; Goto "https://example.com/login" 8000]
               true [])
            eq_refl eq_refl _ eq_refl _ eq_refl eq_refl eq_refl);
    discriminate.
Defined.

(** The browser stays open on that path: no call of the route is
    [BrowserClose]. *)
Lemma handler_leaves_browser_open :
  ~ In BrowserClose
      (log (snd (handler login_request (Sample.fresh Sample.offline_page)))) /\
  browser (snd (handler login_request (Sample.fresh Sample.offline_page)))
  = true.
Proof.
  split; [|reflexivity].
  simpl. intros [H | [H | [H | [H | []]]]]; discriminate.
Qed.

(* ================================================================== *)
(** * More on the parser                                              *)
(* ================================================================== *)

Section MoreLines.

Variable sep : ascii.

Lemma split_first_app (a b : string) :
  Js.split_first sep (a ++ String sep b) =
  (fst (Js.split_first sep a),
   (snd (Js.split_first sep a) ++ Js.split sep b)%list).
Proof.
  unfold Js.split. induction a as [|x a IH]; simpl.
  - destruct (Js.split_first sep b). now rewrite Ascii.eqb_refl.
  - rewrite IH. destruct (Js.split_first sep a) as [p ps]. simpl.
    now destruct (Ascii.eqb x sep).
Qed.

(** Splitting on either side of a separator. *)
Lemma split_app (a b : string) :
  Js.split sep (a ++ String sep b) = (Js.split sep a ++ Js.split sep b)%list.
Proof.
  unfold Js.split at 1 2. rewrite split_first_app.
  now destruct (Js.split_first sep a).
Qed.

Lemma split_first_prefix (s : string) :
  exists post, s = fst (Js.split_first sep s) ++ post.
Proof.
  induction s as [|x s (post & IH)]; simpl.
  - now exists EmptyString.
  - destruct (Js.split_first sep s) as [p ps]. simpl in IH.
    destruct (Ascii.eqb x sep); simpl.
    + now exists (String x s).
    + exists post. now rewrite <- IH.
Qed.

Lemma split_first_in (s line : string) :
  In line (snd (Js.split_first sep s)) ->
  exists pre post, s = pre ++ line ++ post.
Proof.
  induction s as [|x s IH]; simpl; [intros []|].
  destruct (split_first_prefix s) as (post0 & Hp).
  destruct (Js.split_first sep s) as [p ps]. simpl in *.
  destruct (Ascii.eqb x sep); simpl.
  - intros [<- | Hin].
    + exists (String x EmptyString), post0. simpl. now rewrite <- Hp.
    + destruct (IH Hin) as (pre & post & ->).
      now exists (String x pre), post.
  - intros Hin. destruct (IH Hin) as (pre & post & ->).
    now exists (String x pre), post.
Qed.

(** A piece of a text is a part of it. *)
Lemma split_in (s line : string) :
  In line (Js.split sep s) -> exists pre post, s = pre ++ line ++ post.
Proof.
  unfold Js.split.
  pose proof (split_first_prefix s) as (post0 & Hp).
  pose proof (split_first_in s line) as Hin.
  destruct (Js.split_first sep s) as [p ps]. simpl in *.
  intros [<- | Hl]; [|now apply Hin].
  now exists EmptyString, post0.
Qed.

Lemma strip_prefix_first_piece (k s r : string) :
  free_of sep k ->
  Js.strip_prefix k s = Some r ->
  exists r', Js.strip_prefix k (fst (Js.split_first sep s)) = Some r'.
Proof.
  revert s r; induction k as [|a k IH]; intros s r Hfree Hs; simpl in *.
  - eauto.
  - destruct s as [|b s]; [discriminate|].
    destruct (Ascii.eqb_spec a b) as [<-|]; [|discriminate].
    apply free_of_cons in Hfree as [Ha Hfree].
    destruct (IH _ _ Hfree Hs) as (r' & Hr').
    simpl. destruct (Js.split_first sep s) as [p ps]. simpl in Hr'.
    destruct (Ascii.eqb_spec a sep) as [->|_]; [contradiction|].
    simpl. rewrite Ascii.eqb_refl. eauto.
Qed.

Lemma includes_cons (k : string) (x : ascii) (s : string) :
  Js.includes k s = true -> Js.includes k (String x s) = true.
Proof.
  intros Hs. rewrite includes_unfold.
  now destruct (Js.strip_prefix k (String x s)).
Qed.

(** A text that holds [k], which holds no separator, has a piece that
    holds [k]. *)
Lemma includes_some_piece (k s : string) :
  free_of sep k ->
  Js.includes k s = true ->
  exists line, In line (Js.split sep s) /\ Js.includes k line = true.
Proof.
  intros Hfree. unfold Js.split.
  induction s as [|x s IH]; intros Hs.
  - exists EmptyString. split; [now left | exact Hs].
  - rewrite includes_unfold in Hs.
    destruct (Js.strip_prefix k (String x s)) as [r|] eqn:Hp.
    + destruct (strip_prefix_first_piece _ _ _ Hfree Hp) as (r' & Hr').
      exists (fst (Js.split_first sep (String x s))).
      split.
      * destruct (Js.split_first sep (String x s)). now left.
      * rewrite includes_unfold. now rewrite Hr'.
    + destruct (IH Hs) as (line & Hin & Hline).
      simpl. destruct (Js.split_first sep s) as [p ps].
      destruct (Ascii.eqb x sep).
      * exists line. split; [now right | exact Hline].
      * destruct Hin as [<- | Hin].
        -- exists (String x p). split; [now left | now apply includes_cons].
        -- exists line. split; [now right | exact Hline].
Qed.

End MoreLines.

Lemma contains_part (s pre line post k : string) :
  s = pre ++ line ++ post -> contains line k -> contains s k.
Proof.
  intros -> (before & after & ->).
  exists (pre ++ before), (after ++ post).
  now rewrite !append_assoc.
Qed.

(** X1.  The keywords are looked for in the order click, type, submit,
    and the first that occurs in the line decides alone: a line in which
    "click" occurs becomes a click action and loses any [value="..."] it
    has, whatever else occurs in it; "type" decides only when "click" does
    not occur; "submit" only when neither does; a line with none of them
    is skipped. *)
Theorem parseLine_keyword_priority (actions : list Action) (line : string) :
  (contains line "click" ->
   parseLine actions line
   = (actions ++ [mkAction "click" (extractSelector line) None])%list) /\
  (~ contains line "click" -> contains line "type" ->
   parseLine actions line
   = (actions ++ [mkAction "type" (extractSelector line)
                           (Some (extractValue line))])%list) /\
  (~ contains line "click" -> ~ contains line "type" ->
   contains line "submit" ->
   parseLine actions line
   = (actions ++ [mkAction "submit" (extractSelector line) None])%list) /\
  (~ contains line "click" -> ~ contains line "type" ->
   ~ contains line "submit" ->
   parseLine actions line = actions).
Proof.
  unfold parseLine. rewrite <- !includes_true_iff.
  destruct (Js.includes "click" line), (Js.includes "type" line),
    (Js.includes "submit" line);
    repeat split; intros; try reflexivity; try congruence;
    exfalso; auto.
Qed.

(** X1 at a line that asks to type and then to click: one click action,
    with the quoted text as target and no value. *)
Lemma parseLine_keyword_priority_witness :
  contains type_then_click_line "click" /\
  contains type_then_click_line "type" /\
  parseLine [] type_then_click_line
  = [mkAction "click" (Some ("text=" ++ quoted "Go")) None].
Proof.
  assert (Hclick : contains type_then_click_line "click")
    by (apply includes_true_iff; reflexivity).
  assert (Htype : contains type_then_click_line "type")
    by (apply includes_true_iff; reflexivity).
  refine (conj Hclick (conj Htype _)).
  exact (proj1 (parseLine_keyword_priority [] type_then_click_line) Hclick).
Defined.

Lemma occurs_at_contains (pre : string) (c : ascii) (line before group : string) :
  occurs_at pre c line before group ->
  contains line (pre ++ group ++ Js.chr c).
Proof.
  intros (_ & _ & after & ->). exists before, after.
  f_equal. rewrite !append_assoc. reflexivity.
Qed.

Lemma extractValue_free (line : string) : free_of Js.DQ (extractValue line).
Proof.
  unfold extractValue.
  destruct (Js.match_group ("value=" ++ Js.chr Js.DQ) Js.DQ line)
    as [g|] eqn:Hg; [|apply free_of_nil].
  apply match_group_first in Hg.
  now destruct Hg as (before & (_ & Hfree & _) & _).
Qed.

(** X2.  [extractValue] returns group 1 of the leftmost match of
    [value="..."] in the line, and the empty string when there is no
    match; since a match needs at least one character between the quotes,
    the result is empty exactly when the pattern matches nowhere (an empty
    [value=""] is passed over).  The value never holds a double quote, and
    when it is not empty it stands in the line between [value="] and
    ["]. *)
Theorem extractValue_leftmost_or_empty (line : string) :
  (forall group,
      first_match value_pattern Js.DQ line group ->
      extractValue line = group) /\
  (extractValue line = EmptyString <-> ~ matches value_pattern Js.DQ line) /\
  free_of Js.DQ (extractValue line) /\
  (extractValue line <> EmptyString ->
   contains line ("value=" ++ quoted (extractValue line))).
Proof.
  split; [|split; [|split]]; [| |apply extractValue_free|];
    unfold extractValue; fold value_pattern.
  - intros group Hf. apply match_group_iff in Hf. now rewrite Hf.
  - destruct (Js.match_group value_pattern Js.DQ line) as [g|] eqn:Hg.
    + apply match_group_first in Hg.
      pose proof (first_match_matches _ _ _ _ Hg) as Hm.
      destruct Hg as (before & (Hne & _) & _).
      split; [congruence | contradiction].
    + split; [intros _; now apply match_group_none | reflexivity].
  - destruct (Js.match_group value_pattern Js.DQ line) as [g|] eqn:Hg;
      [|congruence].
    intros _. apply match_group_first in Hg.
    destruct Hg as (before & Hocc & _).
    apply occurs_at_contains in Hocc.
    unfold value_pattern, quoted in *.
    now rewrite !append_assoc in *.
Qed.

(** X2 at a line with an empty value before a filled one. *)
Lemma extractValue_leftmost_or_empty_witness :
  first_match value_pattern Js.DQ
              ("type value=" ++ quoted "" ++ " or value=" ++ quoted "hello")
              "hello" /\
  extractValue ("type value=" ++ quoted "" ++ " or value=" ++ quoted "hello")
  = "hello".
Proof.
  assert (Hf : first_match value_pattern Js.DQ
                 ("type value=" ++ quoted "" ++ " or value=" ++ quoted "hello")
                 "hello")
    by (apply match_group_first; reflexivity).
  refine (conj Hf _).
  exact (proj1 (extractValue_leftmost_or_empty _) _ Hf).
Defined.

(** X3.  A selector that [extractSelector] returns is backed by the line:
    it is ["#g"] for a non-empty, quote-free [g] that stands in the line
    as [id="g"]; or [".g"] for such a [g] standing as [class="g"], in a
    line where the id pattern matches nowhere; or [text="g"] for a
    non-empty [g] without single quote standing as ['g'], in a line where
    neither attribute pattern matches.  It is [null] only when none of the
    three patterns matches anywhere in the line. *)
Theorem extractSelector_sound (line : string) :
  (forall s,
      extractSelector line = Some s ->
      (exists g, s = "#" ++ g /\ g <> EmptyString /\ free_of Js.DQ g /\
                 contains line ("id=" ++ quoted g)) \/
      (exists g, s = "." ++ g /\ g <> EmptyString /\ free_of Js.DQ g /\
                 contains line ("class=" ++ quoted g) /\
                 ~ matches id_pattern Js.DQ line) \/
      (exists g, s = "text=" ++ quoted g /\ g <> EmptyString /\
                 free_of Js.SQ g /\
                 contains line (Js.chr Js.SQ ++ g ++ Js.chr Js.SQ) /\
                 ~ matches id_pattern Js.DQ line /\
                 ~ matches class_pattern Js.DQ line)) /\
  (extractSelector line = None ->
   ~ matches id_pattern Js.DQ line /\
   ~ matches class_pattern Js.DQ line /\
   ~ matches text_pattern Js.SQ line).
Proof.
  unfold extractSelector. fold id_pattern class_pattern text_pattern.
  destruct (Js.match_group id_pattern Js.DQ line) as [g|] eqn:Hid.
  - split; [|discriminate]. intros s Hs. injection Hs as <-.
    apply match_group_first in Hid.
    destruct Hid as (before & Hocc & _).
    pose proof (occurs_at_contains _ _ _ _ _ Hocc) as Hc.
    destruct Hocc as (Hne & Hfree & _).
    left. exists g. repeat split; auto.
  - apply match_group_none in Hid.
    destruct (Js.match_group class_pattern Js.DQ line) as [g|] eqn:Hclass.
    + split; [|discriminate]. intros s Hs. injection Hs as <-.
      apply match_group_first in Hclass.
      destruct Hclass as (before & Hocc & _).
      pose proof (occurs_at_contains _ _ _ _ _ Hocc) as Hc.
      destruct Hocc as (Hne & Hfree & _).
      right; left. exists g. repeat split; auto.
    + apply match_group_none in Hclass.
      destruct (Js.match_group text_pattern Js.SQ line) as [g|] eqn:Htext.
      * split; [|discriminate]. intros s Hs. injection Hs as <-.
        apply match_group_first in Htext.
        destruct Htext as (before & Hocc & _).
        pose proof (occurs_at_contains _ _ _ _ _ Hocc) as Hc.
        destruct Hocc as (Hne & Hfree & _).
        right; right. exists g. repeat split; auto.
      * apply match_group_none in Htext.
        split; [discriminate | auto].
Qed.

(** X3 at a line whose only target is a class. *)
Lemma extractSelector_sound_witness :
  extractSelector ("submit the form class=" ++ quoted "login") = Some ".login"
  /\
  exists g, ".login" = "." ++ g /\
            contains ("submit the form class=" ++ quoted "login")
                     ("class=" ++ quoted g).
Proof.
  refine (conj eq_refl _).
  destruct (proj1 (extractSelector_sound
                     ("submit the form class=" ++ quoted "login"))
                  ".login" eq_refl)
    as [(g & Hs & _) | [(g & Hs & _ & _ & Hc & _) | (g & Hs & _)]];
    [discriminate | | discriminate].
  exists g. split; assumption.
Defined.

(** X4.  Parsing is line by line and keeps the order: the actions of two
    texts joined by a line feed are the actions of the first followed by
    the actions of the second. *)
Theorem parseAnalysis_app_lines (first rest : string) :
  parseAnalysis (first ++ String Js.LF rest)
  = (parseAnalysis first ++ parseAnalysis rest)%list.
Proof.
  rewrite !parseAnalysis_flat_map, split_app. apply flat_map_app.
Qed.

(** A text without keyword parses to no action. *)
Lemma parseAnalysis_without_keywords (analysis : string) :
  ~ (contains analysis "click" \/ contains analysis "type" \/
     contains analysis "submit") ->
  parseAnalysis analysis = [].
Proof.
  rewrite parseAnalysis_flat_map. intros Hno.
  assert (Hall : forall line, In line (Js.split Js.LF analysis) ->
                              parseLine [] line = []).
  { intros line Hin. apply parseLine_other.
    destruct (keyword_line line) eqn:Hkey; [|reflexivity].
    exfalso. apply Hno.
    destruct (split_in _ _ _ Hin) as (pre & post & Hs).
    apply keyword_line_iff in Hkey.
    destruct Hkey as [Hk | [Hk | Hk]];
      [left | right; left | right; right];
      eapply contains_part; eauto. }
  induction (Js.split Js.LF analysis) as [|line lines IH];
    [reflexivity|].
  simpl. rewrite (Hall line) by now left.
  apply IH. intros l Hl. apply Hall. now right.
Qed.

(** X5.  The parser returns no action exactly when none of "click",
    "type", "submit" occurs anywhere in the text: a plan without keywords
    (a refusal, an empty answer, capitalised verbs only) parses to the
    empty list, and any occurrence of a keyword, wherever it is, gives at
    least one action. *)
Theorem parseAnalysis_empty_iff_no_keyword (analysis : string) :
  parseAnalysis analysis = [] <->
  ~ (contains analysis "click" \/ contains analysis "type" \/
     contains analysis "submit").
Proof.
  split; [|apply parseAnalysis_without_keywords].
  rewrite parseAnalysis_flat_map.
  intros Hnil Hk.
  assert (Hline : exists line, In line (Js.split Js.LF analysis) /\
                               keyword_line line = true).
  { unfold keyword_line.
    destruct Hk as [Hk | [Hk | Hk]]; apply includes_true_iff in Hk;
      apply (includes_some_piece Js.LF) in Hk; try reflexivity;
      destruct Hk as (line & Hin & Hinc); exists line;
      (split; [exact Hin|]); rewrite Hinc;
      now rewrite ?orb_true_r. }
  destruct Hline as (line & Hin & Hkey).
  destruct (parseLine_keyword _ Hkey) as (action & Ha & _).
  assert (Hin' : In action (flat_map (parseLine [])
                                     (Js.split Js.LF analysis))).
  { apply in_flat_map. exists line. split; [exact Hin|].
    rewrite Ha. now left. }
  rewrite Hnil in Hin'. destruct Hin'.
Qed.

(** X6.  Every parsed action has one of two shapes: type 'type' with a
    value, which holds no double quote (and is empty when the line has no
    [value="..."]); or type 'click' or 'submit' with no value at all. *)
Theorem parseAnalysis_value_only_on_type (analysis : string) :
  Forall parsed_shape (parseAnalysis analysis).
Proof.
  rewrite parseAnalysis_flat_map.
  induction (Js.split Js.LF analysis) as [|line lines IH]; simpl;
    [constructor|].
  apply Forall_app. split; [|exact IH].
  unfold parseLine, parsed_shape.
  destruct (Js.includes "click" line);
    [constructor; [right; simpl; auto | constructor]|].
  destruct (Js.includes "type" line).
  - constructor; [|constructor]. left. simpl. split; [reflexivity|].
    exists (extractValue line). split; [reflexivity|].
    apply extractValue_free.
  - destruct (Js.includes "submit" line);
      [constructor; [right; simpl; auto | constructor] | constructor].
Qed.

(* ================================================================== *)
(** * More on the executor                                            *)
(* ================================================================== *)

Section MoreExecutor.

Context {E : Type} `{Collaborators E}.

Lemma executor_call_driver_call (action : Action) :
  executor_call (driver_call action) = true.
Proof.
  unfold driver_call.
  destruct (type action =? "click"); [reflexivity|].
  destruct (type action =? "type"); reflexivity.
Qed.

(** The calls of the loop: the driver calls of the known actions, in
    order, with waits in between. *)
Lemma loop_from_calls (actions : list Action) (e : E) :
  without_waits (log (loop_from e actions))
  = map driver_call (filter known_type actions) /\
  Forall (fun c => executor_call c = true) (log (loop_from e actions)).
Proof.
  revert e; induction actions as [|action actions IH]; intros e.
  - split; [reflexivity | constructor].
  - rewrite loop_from_cons. simpl. unfold without_waits in *.
    rewrite filter_app.
    destruct (IH (env (loop_from e [action]))) as [IHw IHc].
    rewrite IHw. split.
    + destruct (loop_from_one e action)
        as [(Hk & e1 & _ & ->) | [(Hk & error & e1 & _ & ->) | (Hk & ->)]];
        rewrite Hk; simpl; rewrite ?is_wait_driver_call; reflexivity.
    + apply Forall_app. split; [|exact IHc].
      destruct (loop_from_one e action)
        as [(_ & e1 & _ & ->) | [(_ & error & e1 & _ & ->) | (_ & ->)]];
        simpl; repeat constructor; apply executor_call_driver_call.
Qed.

Lemma loop_from_browser (actions : list Action) (e : E) :
  browser (loop_from e actions) = false.
Proof.
  unfold loop_from. now rewrite for_of_frame.
Qed.

(** The loop over a sequence in two parts. *)
Lemma loop_from_app (first rest : list Action) (e : E) :
  let s1 := loop_from e first in
  let s := loop_from (env s1) rest in
  loop_from e (first ++ rest) =
  mkState (env s) (log s1 ++ log s) false (results s1 ++ results s).
Proof.
  revert e; induction first as [|action first IH]; intros e; simpl.
  - unfold loop_from. now rewrite for_of_frame.
  - rewrite loop_from_cons, IH. simpl.
    rewrite (loop_from_cons e action first). simpl.
    now rewrite <- !app_assoc.
Qed.

Lemma filter_known_all (actions : list Action) :
  Forall (fun action => known_type action = true) actions ->
  filter known_type actions = actions.
Proof.
  induction 1 as [|action l Hk _ IH]; [reflexivity|].
  simpl. rewrite Hk. now f_equal.
Qed.

(** The results describe the actions of a known type, in order. *)
Lemma loop_from_describes_known (actions : list Action) (e : E) :
  Forall2 describes (filter known_type actions)
          (results (loop_from e actions)).
Proof.
  revert e; induction actions as [|action actions IH]; intros e.
  - constructor.
  - rewrite loop_from_cons. simpl.
    destruct (loop_from_one e action)
      as [(Hk & e1 & _ & ->) | [(Hk & error & e1 & _ & ->) | (Hk & ->)]];
      rewrite Hk; simpl; [constructor; [now left | apply IH]
                         | constructor; [right; now exists error | apply IH]
                         | apply IH].
Qed.

(** An action of another type in the middle of a sequence: what comes
    before runs, one wait is made, what comes after runs. *)
Lemma executeActions_around_unknown (first : list Action) (action : Action)
      (rest : list Action) (st : State E) :
  known_type action = false ->
  exists rs1 st1 rs2 st2,
    executeActions first st = (Normal rs1, st1) /\
    executeActions rest
      (mkState (settled (env st1)) (log st1 ++ [WaitForNetworkIdle 3000])
               (browser st1) [])
    = (Normal rs2, st2) /\
    executeActions (first ++ action :: rest) st =
    (Normal (rs1 ++ rs2)%list,
     mkState (env st2) (log st2) (browser st2) (rs1 ++ rs2)%list).
Proof.
  intros Hk. rewrite !executeActions_spec. do 4 eexists.
  split; [reflexivity|]. rewrite executeActions_spec.
  split; [reflexivity|]. simpl.
  rewrite loop_from_app. simpl. rewrite loop_from_cons. simpl.
  destruct (loop_from_one (env (loop_from (env st) first)) action)
    as [(Hk' & _) | [(Hk' & _) | (_ & ->)]]; [congruence | congruence |].
  simpl. now rewrite <- !app_assoc.
Qed.

End MoreExecutor.

(** C10.  An action whose type is none of 'click', 'type', 'submit' makes
    no driver call and gets no result; the settle wait is still made and
    the loop goes on: wherever such an action stands in the sequence, the
    actions before it are executed, one wait is made, and the actions
    after it are executed from there, and the results are those of the
    two parts.  So the executor returns one result for each action of a
    known type only, describing it, in order; the driver calls it makes
    are those of the known actions; a wait follows every action but those
    whose driver call threw; and there are strictly fewer results than
    actions as soon as one action has another type.  The parser only
    makes actions of the three known types, and on what it returns the
    executor gives one result per action. *)
Theorem executeActions_skips_other_types {E : Type} `{Collaborators E}
        (actions : list Action) (st : State E) :
  (forall action st0,
      known_type action = false ->
      executeAction action st0 =
      (Normal tt,
       mkState (settled (env st0)) (log st0 ++ [WaitForNetworkIdle 3000])
               (browser st0) (results st0))) /\
  (forall first action rest,
      actions = (first ++ action :: rest)%list ->
      known_type action = false ->
      exists rs1 st1 rs2 st2,
        executeActions first st = (Normal rs1, st1) /\
        executeActions rest
          (mkState (settled (env st1))
                   (log st1 ++ [WaitForNetworkIdle 3000]) (browser st1) [])
        = (Normal rs2, st2) /\
        executeActions actions st =
        (Normal (rs1 ++ rs2)%list,
         mkState (env st2) (log st2) (browser st2) (rs1 ++ rs2)%list)) /\
  (exists rs st' calls,
      executeActions actions st = (Normal rs, st') /\
      log st' = (log st ++ calls)%list /\
      List.length rs = List.length (filter known_type actions) /\
      Forall2 describes (filter known_type actions) rs /\
      without_waits calls = map driver_call (filter known_type actions) /\
      count_waits calls + List.length (filter is_failure rs)
      = List.length actions /\
      (existsb (fun action => negb (known_type action)) actions = true ->
       List.length rs < List.length actions)) /\
  (forall analysis,
      Forall (fun action => known_type action = true)
             (parseAnalysis analysis) /\
      exists rs st',
        executeActions (parseAnalysis analysis) st = (Normal rs, st') /\
        List.length rs = List.length (parseAnalysis analysis) /\
        Forall2 describes (parseAnalysis analysis) rs).
Proof.
  split; [intros; now apply executeAction_unknown|].
  split; [intros first action rest -> Hk;
          now apply executeActions_around_unknown|].
  split.
  - rewrite executeActions_spec.
    exists (results (loop_from (env st) actions)). eexists.
    exists (log (loop_from (env st) actions)).
    split; [reflexivity|]. split; [reflexivity|].
    split; [apply loop_from_length|].
    split; [apply loop_from_describes_known|].
    split; [apply loop_from_calls|].
    split; [apply loop_from_waits|].
    rewrite loop_from_length. clear st.
    induction actions as [|action actions IH]; simpl; [discriminate|].
    pose proof (filter_length_le known_type actions).
    destruct (known_type action); simpl; intros Hex.
    + specialize (IH Hex). lia.
    + lia.
  - intros analysis.
    pose proof (parseAnalysis_known analysis) as Hknown.
    split; [exact Hknown|].
    rewrite executeActions_spec. do 2 eexists.
    split; [reflexivity|]. split.
    + now rewrite loop_from_length, (filter_known_all _ Hknown).
    + now apply loop_from_describes.
Qed.

(** C10 on the sample login page: a 'hover' between two clicks gives two
    results for three actions, with a wait after each of the three. *)
Lemma executeActions_skips_other_types_witness :
  known_type hover_login = false /\
  existsb (fun action => negb (known_type action))
          [click_login; hover_login; click_form] = true /\
  exists rs st' calls,
    executeActions [click_login; hover_login; click_form]
                   (Sample.fresh Sample.login_page) = (Normal rs, st') /\
    log st' = calls /\
    count_waits calls + List.length (filter is_failure rs) = 3 /\
    List.length rs < 3.
Proof.
  refine (conj eq_refl (conj eq_refl _)).
  destruct (proj1 (proj2 (proj2 (executeActions_skips_other_types
                                   [click_login; hover_login; click_form]
                                   (Sample.fresh Sample.login_page)))))
    as (rs & st' & calls & Hrun & Hlog & _ & _ & _ & Hwaits & Hlt).
  exists rs, st', calls.
  exact (conj Hrun (conj Hlog (conj Hwaits (Hlt eq_refl)))).
Defined.

(** X7.  The executor sends each action of a known type to the driver
    exactly once, in the order of the sequence, and nothing else: apart
    from the settle waits (all with timeout 3000), the calls it adds to
    the log are the driver calls of the known actions, one per action, in
    order.  It makes no retry, skips no known action, and never launches,
    navigates or closes; what was in the log before stays in front, and
    [this.browser] is left as it was. *)
Theorem executeActions_dispatches_in_order {E : Type} `{Collaborators E}
        (actions : list Action) (st : State E) :
  exists rs st' calls,
    executeActions actions st = (Normal rs, st') /\
    log st' = (log st ++ calls)%list /\
    without_waits calls = map driver_call (filter known_type actions) /\
    Forall (fun c => executor_call c = true) calls /\
    browser st' = browser st.
Proof.
  rewrite executeActions_spec.
  exists (results (loop_from (env st) actions)).
  eexists. exists (log (loop_from (env st) actions)).
  destruct (loop_from_calls actions (env st)) as [Hw Hc].
  repeat split; auto.
Qed.

(** X8.  Executing a sequence in two parts gives the same as executing it
    whole: the results of [first ++ rest] are the results of [first]
    followed by the results of [rest] run from the state [first] left, and
    the collaborators and the log end in the same state. *)
Theorem executeActions_app {E : Type} `{Collaborators E}
        (first rest : list Action) (st : State E) :
  exists rs1 st1 rs2 st2,
    executeActions first st = (Normal rs1, st1) /\
    executeActions rest st1 = (Normal rs2, st2) /\
    executeActions (first ++ rest) st =
    (Normal (rs1 ++ rs2)%list,
     mkState (env st2) (log st2) (browser st2) (rs1 ++ rs2)%list).
Proof.
  rewrite !executeActions_spec. do 4 eexists.
  split; [reflexivity|]. rewrite executeActions_spec.
  split; [reflexivity|]. simpl.
  rewrite loop_from_app. simpl. now rewrite <- app_assoc.
Qed.

(** X9 on a page whose network never goes quiet: the click returns, the
    wait times out, and the iteration ends with the success recorded. *)
Lemma executeActions_settle_accounting_witness :
  known_type click_login = true /\
  driver_op click_login Sample.busy_page = (Normal tt, Sample.busy_page) /\
  page_waitForNetworkIdle 3000 Sample.busy_page
  = (Thrown (JsError.mk "Timed out after waiting 3000ms"), Sample.busy_page)
  /\
  executeAction click_login (Sample.fresh Sample.busy_page) =
  (Normal tt,
   mkState Sample.busy_page
           [Click (Some "#login-btn"); WaitForNetworkIdle 3000]
           false ["Clicked #login-btn"]).
Proof.
  refine (conj eq_refl (conj eq_refl (conj eq_refl _))).
  exact (proj1 (executeActions_settle_accounting
                  click_login [] (Sample.fresh Sample.busy_page))
               Sample.busy_page eq_refl eq_refl).
Defined.

(* ================================================================== *)
(** * More on the task                                                *)
(* ================================================================== *)

Section Substring.

Lemma substring_0_prefix (n : nat) (s : string) :
  exists rest, s = substring 0 n s ++ rest.
Proof.
  revert s; induction n as [|n IH]; intros [|c s]; simpl.
  - now exists EmptyString.
  - now exists (String c s).
  - now exists EmptyString.
  - destruct (IH s) as (rest & Hr). exists rest. now rewrite <- Hr.
Qed.

Lemma substring_0_length (n : nat) (s : string) :
  String.length (substring 0 n s) = Nat.min n (String.length s).
Proof.
  revert s; induction n as [|n IH]; intros [|c s]; simpl; auto.
Qed.

Lemma substring_0_all (n : nat) (s : string) :
  String.length s <= n -> substring 0 n s = s.
Proof.
  revert s; induction n as [|n IH]; intros [|c s]; simpl; intros Hle;
    try reflexivity; try lia.
  rewrite IH; [reflexivity | lia].
Qed.

End Substring.

(** X10.  The prompt takes the task as it is and the three element lists
    whole, and of the page text its first 1000 characters: the text of
    the prompt is a prefix of the page text, of length
    [min 1000 (length text)], and is the whole text when that has at most
    1000 characters.  The snapshot itself is not changed. *)
Theorem build_prompt_truncates_text (content : PageSnapshot) (task : string) :
  let prompt := build_prompt content task in
  prompt_task prompt = task /\
  String.length (prompt_text prompt)
  = Nat.min 1000 (String.length (text content)) /\
  (exists rest, text content = prompt_text prompt ++ rest) /\
  (String.length (text content) <= 1000 ->
   prompt_text prompt = text content) /\
  prompt_links prompt = links content /\
  prompt_inputs prompt = inputs content /\
  prompt_buttons prompt = buttons content.
Proof.
  unfold build_prompt. cbn [prompt_task prompt_text prompt_links
                            prompt_inputs prompt_buttons].
  split; [reflexivity|].
  split; [apply substring_0_length|].
  split; [apply substring_0_prefix|].
  split; [apply substring_0_all|].
  repeat split.
Qed.

(** X10 on a short page text: it goes into the prompt whole. *)
Lemma build_prompt_truncates_text_witness :
  String.length (text (mkSnapshot "Sign in" [] [] [])) <= 1000 /\
  prompt_text (build_prompt (mkSnapshot "Sign in" [] [] []) "log in")
  = "Sign in".
Proof.
  assert (Hle : String.length (text (mkSnapshot "Sign in" [] [] [])) <= 1000)
    by (simpl; lia).
  refine (conj Hle _).
  exact (proj1 (proj2 (proj2 (proj2 (build_prompt_truncates_text
                                       (mkSnapshot "Sign in" [] [] [])
                                       "log in")))) Hle).
Defined.

Section MoreTask.

Context {E : Type} `{Collaborators E}.

Variables (url task : string) (st : State E).

(** [executeTask] leaves [this.browser] as it was. *)
Lemma executeTask_browser :
  browser (snd (executeTask url task st)) = browser st.
Proof.
  destruct (page_goto url 8000 (env st)) as [[[]|error] e1] eqn:Hgoto;
    [|now rewrite (executeTask_navigation_thrown _ _ _ _ _ Hgoto)].
  destruct (page_evaluate_content e1) as [[content|error] e2] eqn:Hextract;
    [|now rewrite (executeTask_extraction_thrown _ _ _ _ _ _ Hgoto Hextract)].
  destruct (openai_createChatCompletion (build_prompt content task) e2)
    as [[[analysis|]|error] e3] eqn:Hplan.
  - destruct (executeTask_completed _ _ _ _ _ _ _ _ Hgoto Hextract Hplan)
      as (rs & st' & Hrun & ->).
    rewrite executeActions_spec in Hrun. now injection Hrun as _ <-.
  - now rewrite (executeTask_parse_thrown _ _ _ _ _ _ _ Hgoto Hextract Hplan).
  - now rewrite
        (executeTask_plan_thrown _ _ _ _ _ _ _ _ Hgoto Hextract Hplan).
Qed.

End MoreTask.

(** X11.  The calls of one task, in order, and what decides where it
    stops.  First the navigation, once, with timeout 8000; if it throws,
    nothing else is called.  Then one extraction; if it throws, nothing
    else is called.  Then one plan request, for the prompt built from the
    content the extraction returned; if it throws, or returns no content,
    nothing else is called.  Then the calls of the executor, whose driver
    calls are those of the actions parsed from the plan that came back.
    When the task throws, the error is the wrapped error of the stage
    that stopped it.  No stage is tried twice, and the task never
    launches or closes the browser: [this.browser] is as before. *)
Theorem executeTask_call_sequence {E : Type} `{Collaborators E}
        (url task : string) (st : State E) :
  let wrapped (error : JsError.t) :=
    JsError.mk ("Task execution failed: " ++ JsError.message error) in
  exists r st' calls,
    executeTask url task st = (r, st') /\
    log st' = (log st ++ Goto url 8000 :: calls)%list /\
    browser st' = browser st /\
    ((exists error e1,
         page_goto url 8000 (env st) = (Thrown error, e1) /\
         calls = [] /\ r = Thrown (wrapped error)) \/
     (exists e1 error e2,
         page_goto url 8000 (env st) = (Normal tt, e1) /\
         page_evaluate_content e1 = (Thrown error, e2) /\
         calls = [EvaluateContent] /\ r = Thrown (wrapped error)) \/
     (exists e1 content e2 error e3,
         page_goto url 8000 (env st) = (Normal tt, e1) /\
         page_evaluate_content e1 = (Normal content, e2) /\
         (openai_createChatCompletion (build_prompt content task) e2
          = (Thrown error, e3) \/
          openai_createChatCompletion (build_prompt content task) e2
          = (Normal None, e3) /\ error = split_of_null) /\
         calls = [EvaluateContent;
                  CreateChatCompletion (build_prompt content task)] /\
         r = Thrown (wrapped error)) \/
     (exists e1 content e2 analysis e3 acts rs,
         page_goto url 8000 (env st) = (Normal tt, e1) /\
         page_evaluate_content e1 = (Normal content, e2) /\
         openai_createChatCompletion (build_prompt content task) e2
         = (Normal (Some analysis), e3) /\
         calls = EvaluateContent
                   :: CreateChatCompletion (build_prompt content task)
                   :: acts /\
         Forall (fun c => executor_call c = true) acts /\
         without_waits acts = map driver_call (parseAnalysis analysis) /\
         r = Normal (mkTaskResult true rs "Task completed successfully"))).
Proof.
  intros wrapped. subst wrapped.
  destruct (page_goto url 8000 (env st)) as [[[]|error] e1] eqn:Hgoto.
  - destruct (page_evaluate_content e1) as [[content|error] e2] eqn:Hextract.
    + destruct (openai_createChatCompletion (build_prompt content task) e2)
        as [[[analysis|]|error] e3] eqn:Hplan.
      * destruct (executeTask_completed _ _ _ _ _ _ _ _ Hgoto Hextract Hplan)
          as (rs & st' & Hrun & ->).
        rewrite executeActions_spec in Hrun. injection Hrun as <- <-.
        do 2 eexists.
        exists (EvaluateContent
                  :: CreateChatCompletion (build_prompt content task)
                  :: log (loop_from e3 (parseAnalysis analysis))).
        split; [reflexivity|]. simpl.
        split; [now rewrite <- !app_assoc|]. split; [reflexivity|].
        right; right; right.
        exists e1, content, e2, analysis, e3.
        do 2 eexists.
        split; [reflexivity|]. split; [exact Hextract|].
        split; [exact Hplan|]. split; [reflexivity|].
        destruct (loop_from_calls (parseAnalysis analysis) e3) as [Hw Hc].
        split; [exact Hc|]. split; [|reflexivity].
        now rewrite Hw, (filter_known_all _ (parseAnalysis_known analysis)).
      * rewrite (executeTask_parse_thrown _ _ _ _ _ _ _ Hgoto Hextract Hplan).
        do 2 eexists.
        exists [EvaluateContent;
                CreateChatCompletion (build_prompt content task)].
        split; [reflexivity|]. simpl.
        split; [now rewrite <- !app_assoc|]. split; [reflexivity|].
        right; right; left.
        exists e1, content, e2, split_of_null, e3.
        split; [reflexivity|]. split; [exact Hextract|].
        split; [right; split; [exact Hplan | reflexivity]|].
        split; reflexivity.
      * rewrite
          (executeTask_plan_thrown _ _ _ _ _ _ _ _ Hgoto Hextract Hplan).
        do 2 eexists.
        exists [EvaluateContent;
                CreateChatCompletion (build_prompt content task)].
        split; [reflexivity|]. simpl.
        split; [now rewrite <- !app_assoc|]. split; [reflexivity|].
        right; right; left.
        exists e1, content, e2, error, e3.
        split; [reflexivity|]. split; [exact Hextract|].
        split; [left; exact Hplan|].
        split; reflexivity.
    + rewrite (executeTask_extraction_thrown _ _ _ _ _ _ Hgoto Hextract).
      do 2 eexists. exists [EvaluateContent].
      split; [reflexivity|]. simpl.
      split; [now rewrite <- !app_assoc|]. split; [reflexivity|].
      right; left. exists e1, error, e2.
      split; [reflexivity|]. split; [exact Hextract|].
      split; reflexivity.
  - rewrite (executeTask_navigation_thrown _ _ _ _ _ Hgoto).
    do 2 eexists. exists [].
    split; [reflexivity|]. simpl.
    split; [reflexivity|]. split; [reflexivity|].
    left. exists error, e1. split; [reflexivity|]. split; reflexivity.
Qed.

(** X12.  A plan in which none of the three keywords occurs (a refusal,
    capitalised verbs only) is not an error: when the navigation, the
    extraction and the plan request return, the task completes with
    [success: true] and an empty [result], and no action is sent to the
    driver. *)
Theorem executeTask_plan_without_keywords {E : Type} `{Collaborators E}
        (url task : string) (st : State E)
        (e1 : E) (content : PageSnapshot) (e2 : E) (analysis : string)
        (e3 : E) :
  page_goto url 8000 (env st) = (Normal tt, e1) ->
  page_evaluate_content e1 = (Normal content, e2) ->
  openai_createChatCompletion (build_prompt content task) e2
  = (Normal (Some analysis), e3) ->
  ~ (contains analysis "click" \/ contains analysis "type" \/
     contains analysis "submit") ->
  executeTask url task st =
  (Normal (mkTaskResult true [] "Task completed successfully"),
   mkState e3
     (log st ++ [Goto url 8000; EvaluateContent;
                 CreateChatCompletion (build_prompt content task)])
     (browser st) []).
Proof.
  intros Hgoto Hextract Hplan Hno.
  destruct (executeTask_completed _ _ _ _ _ _ _ _ Hgoto Hextract Hplan)
    as (rs & st' & Hrun & ->).
  rewrite (parseAnalysis_without_keywords _ Hno) in Hrun.
  rewrite executeActions_spec in Hrun. simpl in Hrun.
  injection Hrun as <- <-.
  now rewrite app_nil_r, <- !app_assoc.
Qed.

(** X12 on a page whose plan is a refusal. *)
Lemma executeTask_plan_without_keywords_witness :
  ~ (contains refusal_text "click" \/ contains refusal_text "type" \/
     contains refusal_text "submit") /\
  executeTask "https://example.com/login" "log in with user test"
              (Sample.fresh refused_page) =
  (Normal (mkTaskResult true [] "Task completed successfully"),
   mkState refused_page
     [Goto "https://example.com/login" 8000; EvaluateContent;
      CreateChatCompletion
        (build_prompt (mkSnapshot "" [] [] []) "log in with user test")]
     false []).
Proof.
  assert (Hno : ~ (contains refusal_text "click" \/
                   contains refusal_text "type" \/
                   contains refusal_text "submit")).
  { intros [Hk | [Hk | Hk]]; apply includes_true_iff in Hk; discriminate. }
  refine (conj Hno _).
  exact (executeTask_plan_without_keywords
           "https://example.com/login" "log in with user test"
           (Sample.fresh refused_page)
           refused_page (mkSnapshot "" [] [] []) refused_page refusal_text
           refused_page eq_refl eq_refl eq_refl Hno).
Defined.

(* ================================================================== *)
(** * More on the route and the browser                               *)
(* ================================================================== *)


(** X13.  The route checks the method first and the body second, and
    answers a request that fails a check without touching anything: any
    method but POST gets 405 "Method not allowed", whatever the body; a
    POST whose body has no url or no task, or an empty one, gets 400 "URL
    and task are required".  In both cases no browser is launched and no
    call is made.  A POST whose body is [undefined] or [null] gets no
    answer from the route: the destructuring of the body is outside the
    [try], and the route throws its [TypeError]. *)
Theorem handler_rejects_before_any_call {E : Type} `{Collaborators E}
        (req : Request) (st : State E) :
  (method req <> "POST" ->
   handler req st =
   (Normal (mkResponse 405 (json_of_error "Method not allowed")), st)) /\
  (forall url task,
      method req = "POST" ->
      body req = BodyObject url task ->
      url = None \/ url = Some EmptyString \/
      task = None \/ task = Some EmptyString ->
      handler req st =
      (Normal (mkResponse 400 (json_of_error "URL and task are required")),
       st)) /\
  (method req = "POST" -> body req = BodyUndefined ->
   handler req st = (Thrown destructure_of_undefined, st)) /\
  (method req = "POST" -> body req = BodyNull ->
   handler req st = (Thrown destructure_of_null, st)).
Proof.
  split; [apply handler_not_post|].
  split; [intros url task; apply handler_bad_body|].
  split; [apply handler_undefined_body | apply handler_null_body].
Qed.

(** X13 at a GET without body, at a POST with an empty task, and at a
    POST with a [null] body. *)
Lemma handler_rejects_before_any_call_witness :
  handler (mkRequest "GET" BodyUndefined) (Sample.fresh Sample.login_page) =
  (Normal (mkResponse 405 (json_of_error "Method not allowed")),
   Sample.fresh Sample.login_page) /\
  handler (mkRequest "POST"
                     (BodyObject (Some "https://example.com") (Some "")))
          (Sample.fresh Sample.login_page) =
  (Normal (mkResponse 400 (json_of_error "URL and task are required")),
   Sample.fresh Sample.login_page) /\
  handler (mkRequest "POST" BodyNull) (Sample.fresh Sample.login_page) =
  (Thrown (JsError.mk
             "Cannot destructure property 'url' of 'req.body' as it is null."),
   Sample.fresh Sample.login_page).
Proof.
  split; [|split].
  - refine (proj1 (handler_rejects_before_any_call
                     (mkRequest "GET" BodyUndefined)
                     (Sample.fresh Sample.login_page)) _).
    discriminate.
  - refine (proj1 (proj2 (handler_rejects_before_any_call
                            (mkRequest "POST"
                               (BodyObject (Some "https://example.com")
                                           (Some "")))
                            (Sample.fresh Sample.login_page)))
                  (Some "https://example.com") (Some "") eq_refl eq_refl _).
    right; right; right. reflexivity.
  - exact (proj2 (proj2 (proj2 (handler_rejects_before_any_call
                                  (mkRequest "POST" BodyNull)
                                  (Sample.fresh Sample.login_page))))
                 eq_refl eq_refl).
Defined.


(** X15.  When the browser cannot be started, a good request gets 500
    with the message of the error.  The route makes a new agent, whose
    browser is not assigned.  If the launch itself throws, no page is
    asked for and [this.browser] stays unassigned, whatever agent ran
    before.  If the launch returns and the opening of the page throws,
    [this.browser] has been assigned, and the route answers without
    closing it: the calls are the launch, the page request and the
    [console.error]. *)
Theorem handler_initialize_failures {E : Type} `{Collaborators E}
        (req : Request) (url task : string) (st : State E) :
  method req = "POST" ->
  body_url req = Some url -> url <> EmptyString ->
  body_task req = Some task -> task <> EmptyString ->
  (forall error e1,
      puppeteer_launch (env st) = (Thrown error, e1) ->
      handler req st =
      (Normal (mkResponse 500 (json_of_error (JsError.message error))),
       mkState e1 (log st ++ [Launch; ConsoleError error])
               false (results st))) /\
  (forall e1 error e2,
      puppeteer_launch (env st) = (Normal tt, e1) ->
      browser_newPage e1 = (Thrown error, e2) ->
      handler req st =
      (Normal (mkResponse 500 (json_of_error (JsError.message error))),
       mkState e2 (log st ++ [Launch; NewPage; ConsoleError error])
               true (results st))).
Proof.
  intros Hm Hurl Hu Htask Ht.
  rewrite (handler_valid req url task st Hm Hurl Hu Htask Ht).
  rewrite initialize_spec. simpl. split.
  - intros error e1 ->. simpl. now rewrite <- app_assoc.
  - intros e1 error e2 -> ->. simpl. now rewrite <- app_assoc.
Qed.

(** X15 with a browser that launches and then opens no page, and with a
    browser that does not launch, on a state left by an earlier agent
    whose browser was assigned. *)
Lemma handler_initialize_failures_witness :
  method login_request = "POST" /\
  puppeteer_launch SampleHost.no_page = (Normal tt, SampleHost.no_page) /\
  browser_newPage SampleHost.no_page
  = (Thrown (JsError.mk "Protocol error (Target.createTarget)"),
     SampleHost.no_page) /\
  handler login_request (SampleHost.fresh SampleHost.no_page) =
  (Normal (mkResponse 500
             (json_of_error "Protocol error (Target.createTarget)")),
   mkState SampleHost.no_page
     [Launch; NewPage;
      ConsoleError (JsError.mk "Protocol error (Target.createTarget)")]
     true []) /\
  handler login_request (mkState SampleHost.no_launch [] true []) =
  (Normal (mkResponse 500
             (json_of_error "Failed to launch the browser process")),
   mkState SampleHost.no_launch
     [Launch;
      ConsoleError (JsError.mk "Failed to launch the browser process")]
     false []).
Proof.
  refine (conj eq_refl (conj eq_refl (conj eq_refl (conj _ _)))).
  - refine (proj2 (handler_initialize_failures
                     login_request "https://example.com/login"
                     "log in with user test"
                     (SampleHost.fresh SampleHost.no_page)
                     eq_refl eq_refl _ eq_refl _)
                  SampleHost.no_page
                  (JsError.mk "Protocol error (Target.createTarget)")
                  SampleHost.no_page eq_refl eq_refl);
      discriminate.
  - refine (proj1 (handler_initialize_failures
                     login_request "https://example.com/login"
                     "log in with user test"
                     (mkState SampleHost.no_launch [] true [])
                     eq_refl eq_refl _ eq_refl _)
                  (JsError.mk "Failed to launch the browser process")
                  SampleHost.no_launch eq_refl);
      discriminate.
Defined.

(** X16.  The closing of the browser is inside the [try] of the route,
    before the answer is written: when the task has completed and
    [browser.close()] throws, the route answers 500 with the message of
    that error, and the result of the completed task is not sent. *)
Theorem handler_close_failure_hides_result {E : Type} `{Collaborators E}
        (req : Request) (url task : string) (st : State E)
        (e1 e2 : E) (result : TaskResult) (st2 : State E)
        (error : JsError.t) (e3 : E) :
  method req = "POST" ->
  body_url req = Some url -> url <> EmptyString ->
  body_task req = Some task -> task <> EmptyString ->
  puppeteer_launch (env st) = (Normal tt, e1) ->
  browser_newPage e1 = (Normal tt, e2) ->
  executeTask url task
    (mkState e2 (log st ++ [Launch; NewPage]) true (results st))
  = (Normal result, st2) ->
  browser_close (env st2) = (Thrown error, e3) ->
  handler req st =
  (Normal (mkResponse 500 (json_of_error (JsError.message error))),
   mkState e3 (log st2 ++ [BrowserClose; ConsoleError error]) true
           (results st2)).
Proof.
  intros Hm Hurl Hu Htask Ht Hlaunch Hpage Hrun Hclose.
  rewrite (handler_valid req url task st Hm Hurl Hu Htask Ht).
  rewrite initialize_spec. simpl. rewrite Hlaunch, Hpage. simpl.
  pose proof (executeTask_browser url task
                (mkState e2 (log st ++ [Launch; NewPage]) true (results st)))
    as Hb.
  rewrite Hrun in *. simpl in Hb.
  rewrite close_spec, Hb, Hclose. simpl.
  now rewrite <- app_assoc.
Qed.

(** X16 on the login page with a browser that does not close: the click
    was made and recorded, and the answer is 500. *)
Lemma handler_close_failure_hides_result_witness :
  executeTask "https://example.com/login" "log in with user test"
    (mkState SampleHost.no_close [Launch; NewPage] true [])
  = (Normal (mkTaskResult true ["Clicked #login-btn"]
                          "Task completed successfully"),
     mkState SampleHost.no_close
       [Launch; NewPage; Goto "https://example.com/login" 8000;
        EvaluateContent;
        CreateChatCompletion (mkPrompt "log in with user test" "" [] [] []);
        Click (Some "#login-btn"); WaitForNetworkIdle 3000]
       true ["Clicked #login-btn"]) /\
  handler login_request (SampleHost.fresh SampleHost.no_close) =
  (Normal (mkResponse 500 (json_of_error "Protocol error (Browser.close)")),
   mkState SampleHost.no_close
     [Launch; NewPage; Goto "https://example.com/login" 8000;
      EvaluateContent;
      CreateChatCompletion (mkPrompt "log in with user test" "" [] [] []);
      Click (Some "#login-btn"); WaitForNetworkIdle 3000;
      BrowserClose;
      ConsoleError (JsError.mk "Protocol error (Browser.close)")]
     true ["Clicked #login-btn"]).
Proof.
  refine (conj eq_refl _).
  refine (handler_close_failure_hides_result
            login_request "https://example.com/login"
            "log in with user test"
            (SampleHost.fresh SampleHost.no_close)
            SampleHost.no_close SampleHost.no_close
            (mkTaskResult true ["Clicked #login-btn"]
                          "Task completed successfully")
            (mkState SampleHost.no_close
               [Launch; NewPage; Goto "https://example.com/login" 8000;
                EvaluateContent;
                CreateChatCompletion
                  (mkPrompt "log in with user test" "" [] [] []);
                Click (Some "#login-btn"); WaitForNetworkIdle 3000]
               true ["Clicked #login-btn"])
            (JsError.mk "Protocol error (Browser.close)")
            SampleHost.no_close
            eq_refl eq_refl _ eq_refl _ eq_refl eq_refl eq_refl eq_refl);
    discriminate.
Defined.

(** X17.  [close()] does nothing on an agent whose browser was never
    assigned: no call, no error.  On an agent with a browser it calls
    [browser.close()] and leaves [this.browser] assigned, so it is not
    idempotent: a second [close()] calls [browser.close()] again, and
    ends as that second call ends. *)
Theorem close_twice_closes_twice {E : Type} `{Collaborators E}
        (st : State E) :
  (browser st = false -> close st = (Normal tt, st)) /\
  (forall e1,
      browser st = true ->
      browser_close (env st) = (Normal tt, e1) ->
      close st =
      (Normal tt, mkState e1 (log st ++ [BrowserClose]) true (results st)) /\
      bind close (fun _ => close) st =
      (fst (browser_close e1),
       mkState (snd (browser_close e1))
               (log st ++ [BrowserClose; BrowserClose]) true (results st))).
Proof.
  split.
  - intros Hb. now rewrite close_spec, Hb.
  - intros e1 Hb Hclose.
    assert (Hfirst : close st =
                     (Normal tt,
                      mkState e1 (log st ++ [BrowserClose]) true
                              (results st)))
      by now rewrite close_spec, Hb, Hclose.
    split; [exact Hfirst|].
    unfold bind. rewrite Hfirst, close_spec. simpl.
    destruct (browser_close e1). simpl. now rewrite <- app_assoc.
Qed.

(** X17 on an agent that was initialised on the sample page. *)
Lemma close_twice_closes_twice_witness :
  bind close (fun _ => close)
       (mkState Sample.login_page [Launch; NewPage] true []) =
  (Normal tt,
   mkState Sample.login_page [Launch; NewPage; BrowserClose; BrowserClose]
           true []).
Proof.
  exact (proj2 (proj2 (close_twice_closes_twice
                         (mkState Sample.login_page [Launch; NewPage]
                                  true []))
                      Sample.login_page eq_refl eq_refl)).
Defined.

(** X18.  End to end, the plan decides the length of the result: when the
    navigation, the extraction and the plan request return, the task
    completes, whatever the driver does with the actions, and its
    [result] has exactly one entry for each line of the plan in which
    "click", "type" or "submit" occurs. *)
Theorem executeTask_one_result_per_keyword_line {E : Type} `{Collaborators E}
        (url task : string) (st : State E)
        (e1 : E) (content : PageSnapshot) (e2 : E) (analysis : string)
        (e3 : E) :
  page_goto url 8000 (env st) = (Normal tt, e1) ->
  page_evaluate_content e1 = (Normal content, e2) ->
  openai_createChatCompletion (build_prompt content task) e2
  = (Normal (Some analysis), e3) ->
  exists rs st',
    executeTask url task st =
    (Normal (mkTaskResult true rs "Task completed successfully"), st') /\
    List.length rs
    = List.length (filter keyword_line (Js.split Js.LF analysis)).
Proof.
  intros Hgoto Hextract Hplan.
  destruct (executeTask_completed _ _ _ _ _ _ _ _ Hgoto Hextract Hplan)
    as (rs & st' & Hrun & Htask).
  exists rs, st'. split; [exact Htask|].
  rewrite executeActions_spec in Hrun. injection Hrun as <- _.
  rewrite loop_from_length.
  pose proof (parseAnalysis_known analysis) as Hknown.
  rewrite (filter_known_all _ Hknown), parseAnalysis_flat_map.
  symmetry. eapply Forall2_length. apply flat_map_parseLine.
Qed.

(** X18 on a page whose plan has two steps, the first on an element that
    is there and the second on one that is not. *)
Lemma executeTask_one_result_per_keyword_line_witness :
  exists rs st',
    executeTask "https://example.com/login" "log in with user test"
      (Sample.fresh
         (Sample.mkSite ["#user"] true (Normal (Some two_step_plan)) true))
    = (Normal (mkTaskResult true rs "Task completed successfully"), st') /\
    List.length rs = 2.
Proof.
  exact (executeTask_one_result_per_keyword_line
           "https://example.com/login" "log in with user test"
           (Sample.fresh
              (Sample.mkSite ["#user"] true (Normal (Some two_step_plan))
                             true))
           _ (mkSnapshot "" [] [] []) _ two_step_plan _
           eq_refl eq_refl eq_refl).
Defined.
